(** * Kaleidoscope vinyl generator: trajectory, colour cycling and symmetric rendering

    A shallow embedding of the two sketch files of the repository (the
    unnamed later variant and [sketch.js]) together with the few p5.js
    primitives they call.  JavaScript numbers are idealised as real numbers;
    a value that JavaScript would report as [NaN] or [undefined] is [None];
    a raised exception is [Throw]. *)

From Stdlib Require Import Reals Lra Lia ZArith List String Bool Permutation.
Import ListNotations.
Open Scope R_scope.

(** ** JavaScript values *)

Module JS.

Inductive Error : Type :=
| Err (message : string)   (* [new Error(message)] *)
| TypeError.               (* a property read on [undefined] *)

Inductive Result (A : Type) : Type :=
| Ok (a : A)
| Throw (e : Error).
Arguments Ok {A} a.
Arguments Throw {A} e.

(** How a method call ends. *)
Inductive Completion : Type :=
| Normal
| Abrupt (e : Error).

(** [Math.floor] *)
Definition floor (v : R) : Z := Int_part v.

(** [Math.trunc], the rounding that [%] uses. *)
Definition trunc (v : R) : Z :=
  if Rle_dec 0 v then Int_part v else (- Int_part (- v))%Z.

(** [a % b]: the remainder has the sign of the dividend; a zero divisor
    gives [NaN]. *)
Definition rem (a b : R) : option R :=
  if Req_dec_T b 0 then None else Some (a - b * IZR (trunc (a / b))).

(** [a < b] and [a <= b] as conditions. *)
Definition lt (a b : R) : bool := if Rlt_dec a b then true else false.
Definition le (a b : R) : bool := if Rle_dec a b then true else false.

(** [arr[i]] for an integer-valued index: [undefined] out of range. *)
Definition index {A : Type} (arr : list A) (i : Z) : option A :=
  if (i <? 0)%Z then None else nth_error arr (Z.to_nat i).

End JS.

(** ** The p5.js primitives used by the sketch *)

Module P5.

Inductive AngleMode : Type := RADIANS | DEGREES.

Definition TWO_PI : R := 2 * PI.
Definition DEG_TO_RAD : R := PI / 180.

Definition toRadians (m : AngleMode) (a : R) : R :=
  match m with
  | RADIANS => a
  | DEGREES => a * DEG_TO_RAD
  end.

(** [sin] and [cos] read their argument in the current angle mode. *)
Definition sin (m : AngleMode) (a : R) : R := Rtrigo_def.sin (toRadians m a).
Definition cos (m : AngleMode) (a : R) : R := Rtrigo_def.cos (toRadians m a).

(** [random(lo, hi)], [u] being the raw sample in [0, 1). *)
Definition random (lo hi u : R) : R := u * (hi - lo) + lo.

(** [createVector(x, y)] and [v.set(...)]. *)
Record Vector : Type := createVector { x : R; y : R }.

(** A colour: its four channels in the active colour mode. *)
Record Color : Type := mkColor { ch0 : R; ch1 : R; ch2 : R; ch3 : R }.

Definition lerp (start stop amt : R) : R := amt * (stop - start) + start.

(** [lerpColor(c1, c2, amt)]: reads both colours (a [TypeError] on
    [undefined]), clamps [amt] to [0, 1], blends channel by channel. *)
Definition lerpColor (c1 c2 : option Color) (amt : R) : JS.Result Color :=
  match c1, c2 with
  | Some a, Some b =>
      let amt := Rmax (Rmin amt 1) 0 in
      JS.Ok (mkColor (lerp (ch0 a) (ch0 b) amt) (lerp (ch1 a) (ch1 b) amt)
                     (lerp (ch2 a) (ch2 b) amt) (lerp (ch3 a) (ch3 b) amt))
  | _, _ => JS.Throw JS.TypeError
  end.

(** The current transformation matrix, in the layout of the 2D canvas:
    a point [(px, py)] goes to [(a px + c py + e, b px + d py + f)]. *)
Record Matrix : Type := mkMatrix { ma : R; mb : R; mc : R; md : R; me : R; mf : R }.

Definition identity : Matrix := mkMatrix 1 0 0 1 0 0.

(** [m] followed, on the local side, by [n]. *)
Definition mmul (m n : Matrix) : Matrix :=
  mkMatrix (ma m * ma n + mc m * mb n) (mb m * ma n + md m * mb n)
           (ma m * mc n + mc m * md n) (mb m * mc n + md m * md n)
           (ma m * me n + mc m * mf n + me m) (mb m * me n + md m * mf n + mf m).

Definition rotation (rad : R) : Matrix :=
  mkMatrix (Rtrigo_def.cos rad) (Rtrigo_def.sin rad)
           (- Rtrigo_def.sin rad) (Rtrigo_def.cos rad) 0 0.

Definition scaling (sx sy : R) : Matrix := mkMatrix sx 0 0 sy 0 0.

Definition translation (tx ty : R) : Matrix := mkMatrix 1 0 0 1 tx ty.

Definition transform (m : Matrix) (p : Vector) : Vector :=
  createVector (ma m * x p + mc m * y p + me m) (mb m * x p + md m * y p + mf m).

Record Style : Type := mkStyle { strokeColor : option Color; weight : R }.

(** A rasterised segment: its end points in canvas coordinates and the
    style it was drawn with. *)
Record Line : Type := mkLine { p1 : Vector; p2 : Vector; style : Style }.

(** What the sketch can observe of the p5 instance. *)
Record Canvas : Type := mkCanvas {
  width : R;
  height : R;
  angleMode : AngleMode;
  ctm : Matrix;
  current : Style;
  stack : list (Matrix * Style);
  drawn : list Line
}.

Definition withAngleMode (m : AngleMode) (c : Canvas) : Canvas :=
  mkCanvas (width c) (height c) m (ctm c) (current c) (stack c) (drawn c).

Definition withCtm (m : Matrix) (c : Canvas) : Canvas :=
  mkCanvas (width c) (height c) (angleMode c) m (current c) (stack c) (drawn c).

Definition withCurrent (s : Style) (c : Canvas) : Canvas :=
  mkCanvas (width c) (height c) (angleMode c) (ctm c) s (stack c) (drawn c).

(** [createCanvas(w, h)]: a blank canvas; angles are in radians until
    [angleMode] says otherwise. *)
Definition createCanvas (w h : R) : Canvas :=
  mkCanvas w h RADIANS identity (mkStyle None 1) [] [].

Definition rotate (a : R) (c : Canvas) : Canvas :=
  withCtm (mmul (ctm c) (rotation (toRadians (angleMode c) a))) c.

Definition scale (sx sy : R) (c : Canvas) : Canvas :=
  withCtm (mmul (ctm c) (scaling sx sy)) c.

Definition translate (tx ty : R) (c : Canvas) : Canvas :=
  withCtm (mmul (ctm c) (translation tx ty)) c.

Definition resetMatrix (c : Canvas) : Canvas := withCtm identity c.

Definition stroke (col : Color) (c : Canvas) : Canvas :=
  withCurrent (mkStyle (Some col) (weight (current c))) c.

Definition strokeWeight (w : R) (c : Canvas) : Canvas :=
  withCurrent (mkStyle (strokeColor (current c)) w) c.

Definition push (c : Canvas) : Canvas :=
  mkCanvas (width c) (height c) (angleMode c) (ctm c) (current c)
           ((ctm c, current c) :: stack c) (drawn c).

Definition pop (c : Canvas) : Canvas :=
  match stack c with
  | [] => c
  | (m, s) :: rest =>
      mkCanvas (width c) (height c) (angleMode c) m s rest (drawn c)
  end.

Definition line (x1 y1 x2 y2 : R) (c : Canvas) : Canvas :=
  mkCanvas (width c) (height c) (angleMode c) (ctm c) (current c) (stack c)
           (drawn c ++ [mkLine (transform (ctm c) (createVector x1 y1))
                               (transform (ctm c) (createVector x2 y2))
                               (current c)]).

(** The pointer, as p5 exposes it each frame. *)
Record Pointer : Type := mkPointer {
  mouseIsPressed : bool;
  mouseX : R;
  mouseY : R;
  pmouseX : R;
  pmouseY : R
}.

End P5.

(** Sequencing of canvas commands, in source order. *)
Notation "c '|>' f" := (f c) (at level 45, left associativity, only parsing).

(** ** The sketch's global variables *)

Record Globals : Type := mkGlobals {
  symmetry : nat;
  angle : R;
  autoPaused : bool;
  drawRadius : R;
  strokeWeightSlider : option R;   (* the slider's value, when it exists *)
  hexPalette : list string
}.

(** [symmetry = symmetrySlider.value(); angle = 360 / symmetry;] *)
Definition setSymmetry (n : nat) (g : Globals) : Globals :=
  mkGlobals n (360 / INR n) (autoPaused g) (drawRadius g)
            (strokeWeightSlider g) (hexPalette g).

Definition toggleAutoPause (g : Globals) : Globals :=
  mkGlobals (symmetry g) (angle g) (negb (autoPaused g)) (drawRadius g)
            (strokeWeightSlider g) (hexPalette g).

(** ** The kaleidoscope drawing loop

    The loop of [MouseDrawer.draw] and of [SinusoidalDrawer.draw] is the same
    text in both files, up to the stroke weight [w]: [sketch.js] passes 1.5,
    the later variant the slider's live value. *)

Definition liveStrokeWeight (g : Globals) : R :=
  match strokeWeightSlider g with
  | Some v => v
  | None => 1.5
  end.

Definition kaleidoscopeStep (g : Globals) (w x1 y1 x2 y2 : R)
    (currentColor : P5.Color) (c : P5.Canvas) : P5.Canvas :=
  c |> P5.rotate (angle g)
    |> P5.stroke currentColor
    |> P5.strokeWeight w
    |> P5.line x1 y1 x2 y2
    |> P5.push
    |> P5.scale 1 (-1)
    |> P5.line x1 y1 x2 y2
    |> P5.pop.

(** [for (let i = 0; i < symmetry; i++) { ... }] *)
Definition kaleidoscope (g : Globals) (w x1 y1 x2 y2 : R)
    (currentColor : P5.Color) (c : P5.Canvas) : P5.Canvas :=
  Nat.iter (symmetry g) (kaleidoscopeStep g w x1 y1 x2 y2 currentColor) c.

(** The segments a command sequence added to the canvas. *)
Definition emitted (before after : P5.Canvas) : list P5.Line :=
  skipn (List.length (P5.drawn before)) (P5.drawn after).

(** ** Colour cycling

    The colour computation of both drawers, from the cursor already
    advanced: [t = cursor % palette.length], the two neighbouring palette
    entries and their blend. *)

Definition paletteColor (palette : list P5.Color) (colorInterpolation : R)
    : JS.Result P5.Color :=
  match JS.rem colorInterpolation (INR (List.length palette)) with
  | None => P5.lerpColor None None 0
  | Some t_color =>
      let color1Index := JS.floor t_color in
      let color2Index := Z.rem (color1Index + 1) (Z.of_nat (List.length palette)) in
      let interpolationFactor := t_color - IZR color1Index in
      let color1 := JS.index palette color1Index in
      let color2 := JS.index palette color2Index in
      P5.lerpColor color1 color2 interpolationFactor
  end.

(** ** The random source: the raw samples that [random] will consume. *)

Definition Rng : Type := nat -> R.

Definition sample (r : Rng) : R * Rng := (r 0%nat, fun n => r (S n)).

(** ** SinusoidalWave *)

Module SinusoidalWave.

Record instance : Type := mk {
  radius : R;
  freq : R;
  phase : R;
  phaseInc : R;
  mode : string
}.

Definition new (radius freq phase : R) (phaseInc : option R) (mode : string)
    (r : Rng) : instance * Rng :=
  match phaseInc with
  | Some v => (mk radius freq phase v mode, r)
  | None =>
      let (u, r') := sample r in
      (mk radius freq phase (P5.random 0.0005 0.005 u) mode, r')
  end.

Definition value (m : P5.AngleMode) (w : instance) (t : R) : R :=
  if String.eqb (mode w) "sin"
  then P5.sin m (t * freq w + phase w) * radius w
  else P5.cos m (t * freq w + phase w) * radius w.

Definition incrementPhase (w : instance) : instance :=
  mk (radius w) (freq w) (phase w + phaseInc w) (phaseInc w) (mode w).

Definition setPhaseInc (v : R) (w : instance) : instance :=
  mk (radius w) (freq w) (phase w) v (mode w).

End SinusoidalWave.

(** ** ProceduralDrawer, the abstract base class *)

(** The two methods a procedural drawer answers to. *)
Class Drawer (D : Type) : Type := {
  update : Globals -> P5.Canvas -> D -> D * JS.Completion;
  draw : Globals -> P5.Canvas -> D -> D * P5.Canvas * JS.Completion
}.

Module ProceduralDrawer.

Record instance : Type := new { }.

Definition update (g : Globals) (c : P5.Canvas) (d : instance)
    : instance * JS.Completion :=
  (d, JS.Abrupt (JS.Err "Method 'update()' must be implemented by subclass")).

Definition draw (g : Globals) (c : P5.Canvas) (d : instance)
    : instance * P5.Canvas * JS.Completion :=
  (d, c, JS.Abrupt (JS.Err "Method 'draw()' must be implemented by subclass")).

End ProceduralDrawer.

#[export] Instance ProceduralDrawer_Drawer : Drawer ProceduralDrawer.instance :=
  {| update := ProceduralDrawer.update; draw := ProceduralDrawer.draw |}.

(** ** MouseDrawer *)

Module MouseDrawer.

Record instance : Type := mk {
  palette : list P5.Color;
  colorInterpolation : R;
  colorInterpolationSpeed : R
}.

Definition new (color : string -> P5.Color) (g : Globals) : instance :=
  mk (map color (hexPalette g)) 0 0.01.

Definition inside (c : P5.Canvas) (p : P5.Pointer) : bool :=
  Bool.eqb (P5.mouseIsPressed p) true
  && JS.lt 0 (P5.mouseX p) && JS.lt (P5.mouseX p) (P5.width c)
  && JS.lt 0 (P5.mouseY p) && JS.lt (P5.mouseY p) (P5.height c).

(** [w] is the stroke weight of the loop: see [kaleidoscopeStep]. *)
Definition draw (g : Globals) (w : R) (p : P5.Pointer) (c : P5.Canvas)
    (d : instance) : instance * P5.Canvas * JS.Completion :=
  if inside c p then
    let lineStartX := P5.mouseX p - P5.width c / 2 in
    let lineStartY := P5.mouseY p - P5.height c / 2 in
    let lineEndX := P5.pmouseX p - P5.width c / 2 in
    let lineEndY := P5.pmouseY p - P5.height c / 2 in
    let d := mk (palette d) (colorInterpolation d + colorInterpolationSpeed d)
                (colorInterpolationSpeed d) in
    match paletteColor (palette d) (colorInterpolation d) with
    | JS.Throw e => (d, c, JS.Abrupt e)
    | JS.Ok currentColor =>
        (d, kaleidoscope g w lineStartX lineStartY lineEndX lineEndY currentColor c,
         JS.Normal)
    end
  else (d, c, JS.Normal).

End MouseDrawer.

(** ** SinusoidalDrawer, later variant *)

Module SinusoidalDrawer.

(** The options object; an absent key is [None]. *)
Record Opts : Type := mkOpts {
  opt_t : option R;
  opt_tIncrement : option R;
  opt_palette : option (list string);
  opt_colorInterpolation : option R;
  opt_colorInterpolationSpeed : option R
}.

Definition noOpts : Opts := mkOpts None None None None None.

(** One wave configuration of [_createWavesFromConfig]. *)
Record WaveConfig : Type := mkConfig {
  cfg_radius : option R;
  cfg_freq : option R;
  cfg_phase : option R;
  cfg_phaseInc : option R;
  cfg_mode : option string
}.

Record instance : Type := mk {
  pos : P5.Vector;
  prevPos : P5.Vector;
  t : R;
  tIncrement : R;
  xWaves : list SinusoidalWave.instance;
  yWaves : list SinusoidalWave.instance;
  palette : list P5.Color;
  colorInterpolation : R;
  colorInterpolationSpeed : R
}.

Definition orElse {A : Type} (o : option A) (dflt : A) : A :=
  match o with
  | Some v => v
  | None => dflt
  end.

Definition createWave (g : Globals) (cfg : WaveConfig) (r : Rng)
    : SinusoidalWave.instance * Rng :=
  let radius := orElse (cfg_radius cfg) (drawRadius g * 0.4) in
  let freq := orElse (cfg_freq cfg) 1.0 in
  let (phase, r) :=
    match cfg_phase cfg with
    | Some v => (v, r)
    | None => let (u, r') := sample r in (P5.random 0 P5.TWO_PI u, r')
    end in
  let (phaseInc, r) :=
    match cfg_phaseInc cfg with
    | Some v => (v, r)
    | None => let (u, r') := sample r in (P5.random 0.0005 0.005 u, r')
    end in
  let mode := orElse (cfg_mode cfg) "sin"%string in
  SinusoidalWave.new radius freq phase (Some phaseInc) mode r.

Fixpoint _createWavesFromConfig (g : Globals) (configs : list WaveConfig)
    (r : Rng) : list SinusoidalWave.instance * Rng :=
  match configs with
  | [] => ([], r)
  | cfg :: rest =>
      let (w, r1) := createWave g cfg r in
      let (ws, r2) := _createWavesFromConfig g rest r1 in
      (w :: ws, r2)
  end.

Section Construction.

Variable color : string -> P5.Color.

Definition new (g : Globals) (opts : Opts) (r : Rng) : instance * Rng :=
  let (xs, r1) :=
    _createWavesFromConfig g
      [mkConfig (Some (drawRadius g * 1.0)) (Some 10.0) None (Some 0.1)
                (Some "sin"%string)] r in
  let (ys, r2) := _createWavesFromConfig g [] r1 in
  let usedHexPalette :=
    match opt_palette opts with
    | Some (h :: tl) => h :: tl
    | _ => hexPalette g
    end in
  (mk (P5.createVector 0 0) (P5.createVector 0 0)
      (orElse (opt_t opts) 0)
      (orElse (opt_tIncrement opts) 10)
      xs ys
      (map color usedHexPalette)
      (orElse (opt_colorInterpolation opts) 0)
      (orElse (opt_colorInterpolationSpeed opts) 0.01),
   r2).

End Construction.

(** [let x = 0; for (let wave of waves) x += wave.value(t);] *)
Definition sumWaves (m : P5.AngleMode) (waves : list SinusoidalWave.instance)
    (time : R) : R :=
  fold_left (fun acc w => acc + SinusoidalWave.value m w time) waves 0.

Definition update (g : Globals) (c : P5.Canvas) (d : instance) : instance :=
  if autoPaused g then d
  else
    let prevPos' := pos d in
    let x := sumWaves (P5.angleMode c) (xWaves d) (t d) in
    let y := sumWaves (P5.angleMode c) (yWaves d) (t d) in
    mk (P5.createVector x y) prevPos'
       (t d + tIncrement d) (tIncrement d)
       (map SinusoidalWave.incrementPhase (xWaves d))
       (map SinusoidalWave.incrementPhase (yWaves d))
       (palette d) (colorInterpolation d) (colorInterpolationSpeed d).

Definition setPrevPos (v : P5.Vector) (d : instance) : instance :=
  mk (pos d) v (t d) (tIncrement d) (xWaves d) (yWaves d)
     (palette d) (colorInterpolation d) (colorInterpolationSpeed d).

Definition advanceColor (d : instance) : instance :=
  mk (pos d) (prevPos d) (t d) (tIncrement d) (xWaves d) (yWaves d)
     (palette d) (colorInterpolation d + colorInterpolationSpeed d)
     (colorInterpolationSpeed d).

(** The colour computation of [draw]: the cursor moves on by its speed and
    the palette is read there. *)
Definition nextColor (d : instance) : instance * JS.Result P5.Color :=
  let d := advanceColor d in
  (d, paletteColor (palette d) (colorInterpolation d)).

Definition draw (g : Globals) (c : P5.Canvas) (d : instance)
    : instance * P5.Canvas * JS.Completion :=
  let d := update g c d in
  if JS.le (t d) (tIncrement d) then (setPrevPos (pos d) d, c, JS.Normal)
  else
    let (d, blended) := nextColor d in
    match blended with
    | JS.Throw e => (d, c, JS.Abrupt e)
    | JS.Ok currentColor =>
        (d,
         kaleidoscope g (liveStrokeWeight g)
           (P5.x (pos d)) (P5.y (pos d)) (P5.x (prevPos d)) (P5.y (prevPos d))
           currentColor c,
         JS.Normal)
    end.

(** The drawer after [k] frames; the canvas is left aside. *)
Fixpoint frames (k : nat) (g : Globals) (c : P5.Canvas) (d : instance) : instance :=
  match k with
  | O => d
  | S k' => frames k' g c (fst (fst (draw g c d)))
  end.

End SinusoidalDrawer.

#[export] Instance SinusoidalDrawer_Drawer : Drawer SinusoidalDrawer.instance :=
  {| update := fun g c d => (SinusoidalDrawer.update g c d, JS.Normal);
     draw := SinusoidalDrawer.draw |}.

(** ** SinusoidalDrawer, [sketch.js] variant

    Four fixed waves instead of two lists; the radii, frequencies and phases
    kept on the object are only read to build the waves and are not repeated
    here. *)

Module SketchJs.

Record Opts : Type := mkOpts {
  opt_t : option R;
  opt_tIncrement : option R;
  opt_r1 : option R; opt_r2 : option R; opt_f1 : option R; opt_f2 : option R;
  opt_r3 : option R; opt_r4 : option R; opt_f3 : option R; opt_f4 : option R;
  opt_phases : option (list R);
  opt_phiIncs : option (list R);
  opt_phiInc1 : option R; opt_phiInc2 : option R;
  opt_phiInc3 : option R; opt_phiInc4 : option R;
  opt_palette : option (list string);
  opt_colorInterpolation : option R;
  opt_colorInterpolationSpeed : option R
}.

Definition noOpts : Opts :=
  mkOpts None None None None None None None None None None
         None None None None None None None None None.

Record instance : Type := mk {
  pos : P5.Vector;
  prevPos : P5.Vector;
  t : R;
  tIncrement : R;
  wave1 : SinusoidalWave.instance;
  wave2 : SinusoidalWave.instance;
  wave3 : SinusoidalWave.instance;
  wave4 : SinusoidalWave.instance;
  palette : list P5.Color;
  colorInterpolation : R;
  colorInterpolationSpeed : R
}.

Definition xWaves (d : instance) : list SinusoidalWave.instance := [wave1 d; wave2 d].
Definition yWaves (d : instance) : list SinusoidalWave.instance := [wave3 d; wave4 d].

(** [o !== undefined ? o : random(lo, hi)] *)
Definition orRandom (o : option R) (lo hi : R) (r : Rng) : R * Rng :=
  match o with
  | Some v => (v, r)
  | None => let (u, r') := sample r in (P5.random lo hi u, r')
  end.

Definition fourOf (o : option (list R)) : option (R * R * R * R) :=
  match o with
  | Some (a :: b :: c :: d :: _) => Some (a, b, c, d)
  | _ => None
  end.

Section Construction.

Variable color : string -> P5.Color.

Definition new (g : Globals) (opts : Opts) (r : Rng) : instance * Rng :=
  let orElse := @SinusoidalDrawer.orElse R in
  let r1 := orElse (opt_r1 opts) (drawRadius g * 0.4) in
  let r2 := orElse (opt_r2 opts) (drawRadius g * 0.4) in
  let f1 := orElse (opt_f1 opts) 1.0 in
  let f2 := orElse (opt_f2 opts) 2.5 in
  let r3 := orElse (opt_r3 opts) (drawRadius g * 0.4) in
  let r4 := orElse (opt_r4 opts) (drawRadius g * 0.4) in
  let f3 := orElse (opt_f3 opts) 1.5 in
  let f4 := orElse (opt_f4 opts) 3.0 in
  let '(phi1, phi2, phi3, phi4, r) :=
    match fourOf (opt_phases opts) with
    | Some (a, b, c, d) => (a, b, c, d, r)
    | None =>
        let (a, r) := orRandom None 0 P5.TWO_PI r in
        let (b, r) := orRandom None 0 P5.TWO_PI r in
        let (c, r) := orRandom None 0 P5.TWO_PI r in
        let (d, r) := orRandom None 0 P5.TWO_PI r in
        (a, b, c, d, r)
    end in
  let '(phiInc1, phiInc2, phiInc3, phiInc4, r) :=
    match fourOf (opt_phiIncs opts) with
    | Some (a, b, c, d) => (a, b, c, d, r)
    | None =>
        let (a, r) := orRandom (opt_phiInc1 opts) 0.0005 0.005 r in
        let (b, r) := orRandom (opt_phiInc2 opts) 0.0005 0.005 r in
        let (c, r) := orRandom (opt_phiInc3 opts) 0.0005 0.005 r in
        let (d, r) := orRandom (opt_phiInc4 opts) 0.0005 0.005 r in
        (a, b, c, d, r)
    end in
  let (w1, r) := SinusoidalWave.new r1 f1 phi1 (Some phiInc1) "sin" r in
  let (w2, r) := SinusoidalWave.new r2 f2 phi2 (Some phiInc2) "sin" r in
  let (w3, r) := SinusoidalWave.new r3 f3 phi3 (Some phiInc3) "cos" r in
  let (w4, r) := SinusoidalWave.new r4 f4 phi4 (Some phiInc4) "cos" r in
  let usedHexPalette :=
    match opt_palette opts with
    | Some (h :: tl) => h :: tl
    | _ => hexPalette g
    end in
  (mk (P5.createVector 0 0) (P5.createVector 0 0)
      (orElse (opt_t opts) 0)
      (orElse (opt_tIncrement opts) 10)
      w1 w2 w3 w4
      (map color usedHexPalette)
      (orElse (opt_colorInterpolation opts) 0)
      (orElse (opt_colorInterpolationSpeed opts) 0.01),
   r).

End Construction.

Definition update (g : Globals) (c : P5.Canvas) (d : instance) : instance :=
  if autoPaused g then d
  else
    let m := P5.angleMode c in
    let prevPos' := pos d in
    let x := SinusoidalWave.value m (wave1 d) (t d)
             + SinusoidalWave.value m (wave2 d) (t d) in
    let y := SinusoidalWave.value m (wave3 d) (t d)
             + SinusoidalWave.value m (wave4 d) (t d) in
    mk (P5.createVector x y) prevPos'
       (t d + tIncrement d) (tIncrement d)
       (SinusoidalWave.incrementPhase (wave1 d))
       (SinusoidalWave.incrementPhase (wave2 d))
       (SinusoidalWave.incrementPhase (wave3 d))
       (SinusoidalWave.incrementPhase (wave4 d))
       (palette d) (colorInterpolation d) (colorInterpolationSpeed d).

Definition draw (g : Globals) (c : P5.Canvas) (d : instance)
    : instance * P5.Canvas * JS.Completion :=
  let d := update g c d in
  if JS.le (t d) (tIncrement d) then
    (mk (pos d) (pos d) (t d) (tIncrement d)
        (wave1 d) (wave2 d) (wave3 d) (wave4 d)
        (palette d) (colorInterpolation d) (colorInterpolationSpeed d),
     c, JS.Normal)
  else
    let d := mk (pos d) (prevPos d) (t d) (tIncrement d)
                (wave1 d) (wave2 d) (wave3 d) (wave4 d) (palette d)
                (colorInterpolation d + colorInterpolationSpeed d)
                (colorInterpolationSpeed d) in
    match paletteColor (palette d) (colorInterpolation d) with
    | JS.Throw e => (d, c, JS.Abrupt e)
    | JS.Ok currentColor =>
        (d,
         kaleidoscope g 1.5
           (P5.x (pos d)) (P5.y (pos d)) (P5.x (prevPos d)) (P5.y (prevPos d))
           currentColor c,
         JS.Normal)
    end.

End SketchJs.

(** ** [setup]: what it leaves for the drawers

    The canvas is [w] by [w] with [w = 1000]; angles are switched to degrees;
    the drawing radius comes from the vinyl slider's default 0.85. *)

Definition w : R := 1000.

Definition initialGlobals (hex : list string) : Globals :=
  mkGlobals 12 (360 / 12) false 0 None hex.

Definition setupCanvas : P5.Canvas :=
  P5.createCanvas w w |> P5.withAngleMode P5.DEGREES.

Definition setupGlobals (hex : list string) (strokeWeight : option R) : Globals :=
  let g := initialGlobals hex in
  let vinylDiscDiameter := 0.85 * P5.width setupCanvas in
  mkGlobals (symmetry g) (angle g) (autoPaused g) (vinylDiscDiameter / 2)
            strokeWeight (hexPalette g).

(** The six entries of the global palette. *)
Definition theHexPalette : list string :=
  ["#232327ff"; "#A7A5A3ff"; "#E5E5E3ff"; "#131213ff"; "#32384Dff"; "#959494ff"]%string.

(** The start of every frame: the matrix is reset, the symmetry is read from
    its slider, the origin moves to the centre. *)
Definition beginFrame (symmetrySlider : nat) (g : Globals) (c : P5.Canvas)
    : Globals * P5.Canvas :=
  let c := P5.resetMatrix c in
  (setSymmetry symmetrySlider g,
   c |> P5.translate (P5.width c / 2) (P5.height c / 2)).

(** ** Reading the output of the loop *)

(** The segment from [(x1, y1)] to [(x2, y2)] as it lands on the canvas under
    the matrix [m]. *)
Definition segmentUnder (m : P5.Matrix) (x1 y1 x2 y2 : R) (s : P5.Style) : P5.Line :=
  P5.mkLine (P5.transform m (P5.createVector x1 y1))
            (P5.transform m (P5.createVector x2 y2)) s.

(** Every iteration draws the plain copy and then the reflected one. *)
Fixpoint pairs (ls : list P5.Line) : list (P5.Line * P5.Line) :=
  match ls with
  | r :: m :: rest => (r, m) :: pairs rest
  | _ => []
  end.

Definition rotatedCopies (ls : list P5.Line) : list P5.Line := map fst (pairs ls).
Definition mirroredCopies (ls : list P5.Line) : list P5.Line := map snd (pairs ls).

(** The matrix in force when iteration [i] (from 0) draws. *)
Definition copyMatrix (g : Globals) (c : P5.Canvas) (i : nat) : P5.Matrix :=
  P5.mmul (P5.ctm c)
          (P5.rotation (INR (S i) * P5.toRadians (P5.angleMode c) (angle g))).

(** Negating the y-coordinate of both end points. *)
Definition negateY (l : P5.Line) : P5.Line :=
  P5.mkLine (P5.createVector (P5.x (P5.p1 l)) (- P5.y (P5.p1 l)))
            (P5.createVector (P5.x (P5.p2 l)) (- P5.y (P5.p2 l)))
            (P5.style l).

(** The end points of a drawn segment. *)
Definition geometry (l : P5.Line) : P5.Vector * P5.Vector := (P5.p1 l, P5.p2 l).

(** The copies as the specification words them: copy [i], for [i] from 0 to
    [n - 1], is the input segment rotated by [i * (360 / n)] degrees on its
    own, from the frame's base transform [m0]. *)
Definition independentCopies (m0 : P5.Matrix) (n : nat) (x1 y1 x2 y2 : R)
    : list (P5.Vector * P5.Vector) :=
  map (fun i =>
         let rot := P5.rotation (P5.toRadians P5.DEGREES (INR i * (360 / INR n))) in
         (P5.transform (P5.mmul m0 rot) (P5.createVector x1 y1),
          P5.transform (P5.mmul m0 rot) (P5.createVector x2 y2)))
      (seq 0 n).

(** The colour cycler is in order: there is a palette and the cursor and its
    speed are not negative. *)
Definition cyclerOk (d : SinusoidalDrawer.instance) : Prop :=
  SinusoidalDrawer.palette d <> []
  /\ 0 <= SinusoidalDrawer.colorInterpolation d
  /\ 0 <= SinusoidalDrawer.colorInterpolationSpeed d.

(** The generator of the end-to-end scenario: one x-oscillator of amplitude
    100, frequency 1, phase 0 and no drift, no y-oscillator, time step 1. *)
Definition scenario (palette : list P5.Color) : SinusoidalDrawer.instance :=
  SinusoidalDrawer.mk (P5.createVector 0 0) (P5.createVector 0 0) 0 1
    [SinusoidalWave.mk 100 1 0 0 "sin"] [] palette 0 0.01.

(** ** Inputs and invariants used below *)

(** The input of the counterexample to C5: symmetry 4 (a quarter turn per
    copy) on the canvas that [setup] leaves, segment (0, 5) to (10, 5). *)
Definition quarterTurns : Globals := setSymmetry 4 (setupGlobals theHexPalette None).

Definition quarterTurnOutput : list P5.Line :=
  emitted setupCanvas
    (kaleidoscope quarterTurns 1.5 0 5 10 5 (P5.mkColor 0 0 0 1) setupCanvas).

(** The end points of the segment under the base transform turned [k] times
    by [360 / n] degrees. *)
Definition turned (m0 : P5.Matrix) (n : nat) (x1 y1 x2 y2 : R) (k : nat)
    : P5.Vector * P5.Vector :=
  let rot := P5.rotation (INR k * P5.toRadians P5.DEGREES (360 / INR n)) in
  (P5.transform (P5.mmul m0 rot) (P5.createVector x1 y1),
   P5.transform (P5.mmul m0 rot) (P5.createVector x2 y2)).

(** A drawer whose one-colour palette is read at cursor [-1/2], speed 0. *)
Definition negativeCursor : SinusoidalDrawer.instance :=
  SinusoidalDrawer.mk (P5.createVector 0 0) (P5.createVector 0 0) 20 10 [] []
    [P5.mkColor 0 0 0 1] (- (1 / 2)) 0.


(** The globals that [setup] leaves, the stroke-weight slider at its default
    3, and the same with the pause flag set. *)
Definition runningGlobals : Globals := setupGlobals theHexPalette (Some 3).
Definition pausedGlobals : Globals := toggleAutoPause runningGlobals.

Definition black : P5.Color := P5.mkColor 0 0 0 1.

(** A paused generator past its first step. *)
Definition midway : SinusoidalDrawer.instance :=
  SinusoidalDrawer.mk (P5.createVector 3 4) (P5.createVector 1 2) 20 10
    [SinusoidalWave.mk 100 1 0 0 "sin"] [] [black] 0 0.5.

(** No y-oscillator and a position on the x-axis: kept by every call. *)
Definition yQuiet (d : SinusoidalDrawer.instance) : Prop :=
  SinusoidalDrawer.yWaves d = [] /\ P5.y (SinusoidalDrawer.pos d) = 0.

(** The generator [sketch.js] builds when it is given no options, every raw
    random sample being 0. *)
Definition sketchJsDefault : SketchJs.instance :=
  fst (SketchJs.new (fun _ => black) runningGlobals SketchJs.noOpts (fun _ => 0)).

(** ** The rest of the sketch: clearing, the buttons, the frame

    The fill colour and the clip region of the native context are left out:
    they decide how a shape is painted, not which segments are drawn.  The
    native [save] and [restore] of the frame are [push] and [pop] on the
    canvas kept here. *)

(** [background(30)] repaints the whole canvas: no segment is left. *)
Definition background (c : P5.Canvas) : P5.Canvas :=
  P5.mkCanvas (P5.width c) (P5.height c) (P5.angleMode c) (P5.ctm c)
              (P5.current c) (P5.stack c) [].

(** [noStroke()]: the current style has no stroke colour. *)
Definition noStroke (c : P5.Canvas) : P5.Canvas :=
  P5.withCurrent (P5.mkStyle None (P5.weight (P5.current c))) c.

(** The vinyl disc as [circle] paints it: centre in canvas coordinates and
    diameter. *)
Record Disc : Type := mkDisc { centre : P5.Vector; diameter : R }.

Definition circle (cx cy d : R) (c : P5.Canvas) : Disc :=
  mkDisc (P5.transform (P5.ctm c) (P5.createVector cx cy)) d.

Definition clearCanvas (vinylDiscDiameter : R) (c : P5.Canvas) : P5.Canvas * Disc :=
  let c := c |> P5.push |> P5.resetMatrix |> background |> noStroke in
  let disc := circle (P5.width c / 2) (P5.height c / 2) vinylDiscDiameter c in
  (P5.pop c, disc).

(** Which drawer [currentDrawer] refers to.  It is only ever assigned the
    object that [mouseDrawer] or [autoDrawer] refers to at that time, and
    [autoDrawer] is only reassigned together with it. *)
Inductive Current : Type := CurrentMouse | CurrentAuto.

(** The sketch between two events. *)
Record World : Type := mkWorld {
  globals : Globals;
  vinylDiscDiameter : R;
  canvas : P5.Canvas;
  disc : option Disc;
  mouseDrawer : MouseDrawer.instance;
  autoDrawer : SinusoidalDrawer.instance;
  currentDrawer : Current
}.

(** What the sliders show when a frame reads them; [None] stands for a
    slider that does not exist. *)
Record Controls : Type := mkControls {
  symmetryValue : nat;
  colorRate : option R;
  drawSpeed : option R;
  strokeWeightValue : option R
}.

Definition clearWorld (wld : World) : World :=
  let (c, d) := clearCanvas (vinylDiscDiameter wld) (canvas wld) in
  mkWorld (globals wld) (vinylDiscDiameter wld) c (Some d)
          (mouseDrawer wld) (autoDrawer wld) (currentDrawer wld).

Definition setMouseDrawer (wld : World) : World :=
  clearWorld
    (mkWorld (globals wld) (vinylDiscDiameter wld) (canvas wld) (disc wld)
             (mouseDrawer wld) (autoDrawer wld) CurrentMouse).

Definition setAutoDrawer (color : string -> P5.Color) (r : Rng) (wld : World)
    : World * Rng :=
  let (d, r') := SinusoidalDrawer.new color (globals wld) SinusoidalDrawer.noOpts r in
  (clearWorld
     (mkWorld (globals wld) (vinylDiscDiameter wld) (canvas wld) (disc wld)
              (mouseDrawer wld) d CurrentAuto),
   r').

Definition toggleAutoPauseWorld (wld : World) : World :=
  mkWorld (toggleAutoPause (globals wld)) (vinylDiscDiameter wld) (canvas wld)
          (disc wld) (mouseDrawer wld) (autoDrawer wld) (currentDrawer wld).

Definition keyPressed (key : string) (wld : World) : World :=
  if String.eqb key "c" || String.eqb key "C" then clearWorld wld else wld.

(** The vinyl slider's input callback, the slider at [v]. *)
Definition vinylInput (v : R) (wld : World) : World :=
  let vinylDiscDiameter' := v * P5.width (canvas wld) in
  let g := globals wld in
  clearWorld
    (mkWorld (mkGlobals (symmetry g) (angle g) (autoPaused g)
                        (vinylDiscDiameter' / 2) (strokeWeightSlider g)
                        (hexPalette g))
             vinylDiscDiameter' (canvas wld) (disc wld)
             (mouseDrawer wld) (autoDrawer wld) (currentDrawer wld)).

Definition withStrokeWeightSlider (v : option R) (g : Globals) : Globals :=
  mkGlobals (symmetry g) (angle g) (autoPaused g) (drawRadius g) v (hexPalette g).

Definition setMouseSpeed (v : R) (d : MouseDrawer.instance) : MouseDrawer.instance :=
  MouseDrawer.mk (MouseDrawer.palette d) (MouseDrawer.colorInterpolation d) v.

(** [autoDrawer.colorInterpolationSpeed = rate; autoDrawer.tIncrement = speed;] *)
Definition setAutoSpeeds (rate speed : R) (d : SinusoidalDrawer.instance)
    : SinusoidalDrawer.instance :=
  SinusoidalDrawer.mk (SinusoidalDrawer.pos d) (SinusoidalDrawer.prevPos d)
    (SinusoidalDrawer.t d) speed
    (SinusoidalDrawer.xWaves d) (SinusoidalDrawer.yWaves d)
    (SinusoidalDrawer.palette d) (SinusoidalDrawer.colorInterpolation d) rate.

(** [drawingContext.restore()], reached only when the drawer returned. *)
Definition endFrame (res : JS.Completion) (c : P5.Canvas) : P5.Canvas :=
  match res with
  | JS.Normal => P5.pop c
  | JS.Abrupt _ => c
  end.

(** The global [draw()], one frame: the sliders are read, the origin moves
    to the centre, the drawing state is saved, both drawers receive the
    colour rate, the auto drawer the draw speed, the current drawer draws
    and the saved state is restored. *)
Definition frame (ui : Controls) (p : P5.Pointer) (wld : World)
    : World * JS.Completion :=
  let (g, c) :=
    beginFrame (symmetryValue ui)
               (withStrokeWeightSlider (strokeWeightValue ui) (globals wld))
               (canvas wld) in
  let c := P5.push c in
  let newColorRate := SinusoidalDrawer.orElse (colorRate ui) 0.01 in
  let md := setMouseSpeed newColorRate (mouseDrawer wld) in
  let newDrawSpeed := SinusoidalDrawer.orElse (drawSpeed ui) 0.01 in
  let ad := setAutoSpeeds newColorRate newDrawSpeed (autoDrawer wld) in
  match currentDrawer wld with
  | CurrentMouse =>
      let '(md', c', res) := MouseDrawer.draw g (liveStrokeWeight g) p c md in
      (mkWorld g (vinylDiscDiameter wld) (endFrame res c') (disc wld) md' ad
               CurrentMouse, res)
  | CurrentAuto =>
      let '(ad', c', res) := SinusoidalDrawer.draw g c ad in
      (mkWorld g (vinylDiscDiameter wld) (endFrame res c') (disc wld) md ad'
               CurrentAuto, res)
  end.

(** [setup()], the sliders at their defaults. *)
Definition setup (color : string -> P5.Color) (r : Rng) : World * Rng :=
  let c := setupCanvas in
  let g := setupGlobals theHexPalette (Some 3) in
  let vinylDiscDiameter := 0.85 * P5.width c in
  let md := MouseDrawer.new color g in
  let (ad, r') := SinusoidalDrawer.new color g SinusoidalDrawer.noOpts r in
  (clearWorld (mkWorld g vinylDiscDiameter c None md ad CurrentMouse), r').

(** ** Measures used by the further properties *)

(** The sum of the amplitudes of a list of waves. *)
Definition sumRadius (waves : list SinusoidalWave.instance) : R :=
  fold_right (fun wv acc => Rabs (SinusoidalWave.radius wv) + acc) 0 waves.

(** A wave after [k] phase increments. *)
Definition drifted (k : nat) (wv : SinusoidalWave.instance) : SinusoidalWave.instance :=
  SinusoidalWave.mk (SinusoidalWave.radius wv) (SinusoidalWave.freq wv)
    (SinusoidalWave.phase wv + INR k * SinusoidalWave.phaseInc wv)
    (SinusoidalWave.phaseInc wv) (SinusoidalWave.mode wv).

(** The squared distance of a point from [(cx, cy)]. *)
Definition sqDistance (cx cy : R) (p : P5.Vector) : R :=
  (P5.x p - cx) * (P5.x p - cx) + (P5.y p - cy) * (P5.y p - cy).

(** A generator that cannot get past its first step: paused before it, or
    with a draw speed of 0 at a time not above 0. *)
Definition stalled (g : Globals) (d : SinusoidalDrawer.instance) : Prop :=
  (autoPaused g = true /\ SinusoidalDrawer.t d <= SinusoidalDrawer.tIncrement d)
  \/ (SinusoidalDrawer.tIncrement d = 0 /\ SinusoidalDrawer.t d <= 0).


(** The mirror image of a point in the horizontal line at height [cy]. *)
Definition flipAbout (cy : R) (p : P5.Vector) : P5.Vector :=
  P5.createVector (P5.x p) (2 * cy - P5.y p).

(** A sketch in auto mode some frames after [setup], and slider readings. *)
Definition midwayWorld : World :=
  mkWorld runningGlobals 850 setupCanvas None (MouseDrawer.mk [black] 0 0.01)
          midway CurrentAuto.

Definition someControls : Controls := mkControls 6 (Some 0.5) (Some 5) (Some 3).

Definition pointerUp : P5.Pointer := P5.mkPointer false 0 0 0 0.


(** * Properties *)

(** ** Numbers *)

Lemma le_true_iff (a b : R) : JS.le a b = true <-> a <= b.
Proof. unfold JS.le. destruct (Rle_dec a b); split; intros; congruence || assumption. Qed.

Lemma le_false_iff (a b : R) : JS.le a b = false <-> b < a.
Proof.
  unfold JS.le. destruct (Rle_dec a b) as [H | H]; split; intros H'.
  - discriminate.
  - lra.
  - lra.
  - reflexivity.
Qed.

Lemma PI_bounds : 3.14 < PI < 3.15.
Proof.
  pose proof (PI_2_3_7_ineq 1) as H.
  unfold sum_f_R0, tg_alt, PI_2_3_7_tg, Ratan_seq in H.
  simpl in H.
  lra.
Qed.

Lemma sin_cubic_lb (v : R) : 0 <= v <= 1 -> v - v * v * v / 6 <= sin v.
Proof.
  intros [H0 H1].
  pose proof PI_bounds as [Hl Hu].
  assert (H2 : v <= PI) by lra.
  pose proof (SIN v H0 H2) as [L _].
  assert (E : sin_lb v
              = v - v * v * v / 6 + (v * v * v * v * v) * (1 / 120 - v * v / 5040)).
  { unfold sin_lb, sin_approx, sin_term. simpl. field. }
  rewrite E in L.
  assert (0 <= v * v * v * v * v) by (repeat apply Rmult_le_pos; assumption).
  assert (0 <= 1 / 120 - v * v / 5040) by nra.
  assert (0 <= (v * v * v * v * v) * (1 / 120 - v * v / 5040))
    by (apply Rmult_le_pos; assumption).
  lra.
Qed.

(** One degree: [100 sin(1 deg)] is about 1.745. *)
Lemma sin_one_degree : 1.74 < 100 * sin (PI / 180) < 1.75.
Proof.
  pose proof PI_bounds as [Hl Hu].
  set (v := PI / 180).
  assert (Hv : 0.01744 < v < 0.0175) by (unfold v; lra).
  assert (L : v - v * v * v / 6 <= sin v) by (apply sin_cubic_lb; lra).
  assert (U : sin v < v) by (apply sin_lt_x; lra).
  split; [| lra].
  assert (v * v < 0.0004) by nra.
  assert (v * v * v < 0.00001) by nra.
  lra.
Qed.

(** One radian: [100 sin(1)] is above 83. *)
Lemma sin_one_radian : 83 < 100 * sin 1.
Proof.
  assert (L : 1 - 1 * 1 * 1 / 6 <= sin 1) by (apply sin_cubic_lb; lra).
  lra.
Qed.

(** ** Matrices *)

Lemma matrix_eq (m n : P5.Matrix) :
  P5.ma m = P5.ma n -> P5.mb m = P5.mb n -> P5.mc m = P5.mc n ->
  P5.md m = P5.md n -> P5.me m = P5.me n -> P5.mf m = P5.mf n -> m = n.
Proof. destruct m, n; simpl; intros; subst; reflexivity. Qed.

Lemma mmul_rotation_0 (m : P5.Matrix) : P5.mmul m (P5.rotation 0) = m.
Proof.
  apply matrix_eq; simpl; rewrite ?cos_0, ?sin_0; ring.
Qed.

Lemma mmul_rotation_plus (m : P5.Matrix) (a b : R) :
  P5.mmul (P5.mmul m (P5.rotation a)) (P5.rotation b) = P5.mmul m (P5.rotation (a + b)).
Proof.
  apply matrix_eq; simpl; rewrite ?cos_plus, ?sin_plus; ring.
Qed.

Lemma rotation_full_turn : P5.rotation (2 * PI) = P5.rotation 0.
Proof.
  unfold P5.rotation. rewrite cos_2PI, sin_2PI, cos_0, sin_0. reflexivity.
Qed.

(** Reflecting in the local frame is reflecting the point. *)
Lemma transform_scaling_flip (m : P5.Matrix) (px py : R) :
  P5.transform (P5.mmul m (P5.scaling 1 (-1))) (P5.createVector px py)
  = P5.transform m (P5.createVector px (- py)).
Proof. unfold P5.transform; simpl. f_equal; ring. Qed.

(** ** The loop *)

Section Loop.

Variables (g : Globals) (w x1 y1 x2 y2 : R) (col : P5.Color).

Local Notation "'step'" := (kaleidoscopeStep g w x1 y1 x2 y2 col).
Local Notation "'pen'" := (P5.mkStyle (Some col) w).

Lemma step_frame (c : P5.Canvas) :
  P5.angleMode (step c) = P5.angleMode c
  /\ P5.stack (step c) = P5.stack c
  /\ P5.width (step c) = P5.width c
  /\ P5.height (step c) = P5.height c.
Proof. repeat split. Qed.

Lemma step_ctm (c : P5.Canvas) :
  P5.ctm (step c)
  = P5.mmul (P5.ctm c) (P5.rotation (P5.toRadians (P5.angleMode c) (angle g))).
Proof. reflexivity. Qed.

Lemma step_drawn (c : P5.Canvas) :
  P5.drawn (step c)
  = P5.drawn c
    ++ [segmentUnder (P5.ctm (step c)) x1 y1 x2 y2 pen;
        segmentUnder (P5.mmul (P5.ctm (step c)) (P5.scaling 1 (-1))) x1 y1 x2 y2 pen].
Proof.
  unfold kaleidoscopeStep; simpl. rewrite <- app_assoc. reflexivity.
Qed.

Lemma loop_angleMode (n : nat) (c : P5.Canvas) :
  P5.angleMode (Nat.iter n step c) = P5.angleMode c.
Proof. induction n as [| n IH]; simpl; [reflexivity | exact IH]. Qed.

Lemma loop_ctm (n : nat) (c : P5.Canvas) :
  P5.ctm (Nat.iter n step c)
  = P5.mmul (P5.ctm c)
            (P5.rotation (INR n * P5.toRadians (P5.angleMode c) (angle g))).
Proof.
  induction n as [| n IH].
  - simpl. rewrite Rmult_0_l, mmul_rotation_0. reflexivity.
  - change (Nat.iter (S n) step c) with (step (Nat.iter n step c)).
    rewrite step_ctm, IH, loop_angleMode, mmul_rotation_plus, S_INR.
    f_equal. f_equal. ring.
Qed.

Lemma loop_drawn (n : nat) (c : P5.Canvas) :
  P5.drawn (Nat.iter n step c)
  = P5.drawn c
    ++ flat_map (fun i =>
         [segmentUnder (copyMatrix g c i) x1 y1 x2 y2 pen;
          segmentUnder (P5.mmul (copyMatrix g c i) (P5.scaling 1 (-1)))
                       x1 y1 x2 y2 pen])
       (seq 0 n).
Proof.
  induction n as [| n IH].
  - simpl. rewrite app_nil_r. reflexivity.
  - change (Nat.iter (S n) step c) with (step (Nat.iter n step c)).
    assert (E : P5.mmul (P5.ctm (Nat.iter n step c))
                  (P5.rotation
                     (P5.toRadians (P5.angleMode (Nat.iter n step c)) (angle g)))
                = copyMatrix g c n).
    { rewrite loop_ctm, loop_angleMode, mmul_rotation_plus.
      unfold copyMatrix. rewrite S_INR. f_equal. f_equal. ring. }
    rewrite step_drawn, step_ctm, E, IH, seq_S, flat_map_app, <- app_assoc.
    simpl. reflexivity.
Qed.

Lemma loop_count (n : nat) (c : P5.Canvas) :
  List.length (P5.drawn (Nat.iter n step c))
  = (List.length (P5.drawn c) + 2 * n)%nat.
Proof.
  induction n as [| n IH].
  - simpl. lia.
  - change (Nat.iter (S n) step c) with (step (Nat.iter n step c)).
    rewrite step_drawn, length_app, IH. simpl. lia.
Qed.

End Loop.

Lemma skipn_length_app {A : Type} (l l' : list A) :
  skipn (List.length l) (l ++ l') = l'.
Proof. induction l as [| a l IH]; simpl; [reflexivity | exact IH]. Qed.

Lemma pairs_flat_map {A : Type} (f h : A -> P5.Line) (l : list A) :
  pairs (flat_map (fun i => [f i; h i]) l) = map (fun i => (f i, h i)) l.
Proof. induction l as [| a l IH]; simpl; [reflexivity | now rewrite IH]. Qed.

(** What one call of the loop adds to the canvas, iteration by iteration. *)
Lemma kaleidoscope_emitted (g : Globals) (w x1 y1 x2 y2 : R) (col : P5.Color)
    (c : P5.Canvas) :
  emitted c (kaleidoscope g w x1 y1 x2 y2 col c)
  = flat_map (fun i =>
      [segmentUnder (copyMatrix g c i) x1 y1 x2 y2 (P5.mkStyle (Some col) w);
       segmentUnder (P5.mmul (copyMatrix g c i) (P5.scaling 1 (-1)))
                    x1 y1 x2 y2 (P5.mkStyle (Some col) w)])
    (seq 0 (symmetry g)).
Proof.
  unfold emitted, kaleidoscope. rewrite loop_drawn. apply skipn_length_app.
Qed.

Lemma kaleidoscope_pairs (g : Globals) (w x1 y1 x2 y2 : R) (col : P5.Color)
    (c : P5.Canvas) :
  pairs (emitted c (kaleidoscope g w x1 y1 x2 y2 col c))
  = map (fun i =>
      (segmentUnder (copyMatrix g c i) x1 y1 x2 y2 (P5.mkStyle (Some col) w),
       segmentUnder (P5.mmul (copyMatrix g c i) (P5.scaling 1 (-1)))
                    x1 y1 x2 y2 (P5.mkStyle (Some col) w)))
    (seq 0 (symmetry g)).
Proof. rewrite kaleidoscope_emitted. apply pairs_flat_map. Qed.

Lemma nth_error_map_seq {A : Type} (f : nat -> A) (n i : nat) :
  (i < n)%nat -> nth_error (map f (seq 0 n)) i = Some (f i).
Proof.
  intros Hi. rewrite nth_error_map, nth_error_seq.
  apply Nat.ltb_lt in Hi. rewrite Hi. reflexivity.
Qed.

Lemma segmentUnder_flip (m : P5.Matrix) (x1 y1 x2 y2 : R) (s : P5.Style) :
  segmentUnder (P5.mmul m (P5.scaling 1 (-1))) x1 y1 x2 y2 s
  = segmentUnder m x1 (- y1) x2 (- y2) s.
Proof. unfold segmentUnder. rewrite !transform_scaling_flip. reflexivity. Qed.

(** The ctm is back where it started once the loop has turned by 360 degrees. *)
Lemma full_turn_radians (n : nat) :
  n <> 0%nat -> INR n * P5.toRadians P5.DEGREES (360 / INR n) = 2 * PI.
Proof.
  intros Hn. unfold P5.toRadians, P5.DEG_TO_RAD.
  assert (INR n <> 0) by (apply not_0_INR; exact Hn).
  field. assumption.
Qed.

Lemma kaleidoscope_emits_count (g : Globals) (w x1 y1 x2 y2 : R)
    (col : P5.Color) (c : P5.Canvas) :
  List.length (emitted c (kaleidoscope g w x1 y1 x2 y2 col c)) = (2 * symmetry g)%nat.
Proof. unfold emitted, kaleidoscope. rewrite length_skipn, loop_count. lia. Qed.

(** ** The rendering loop: claims C1, C5, C6 *)


Lemma quarter_turn_radians :
  INR 1 * P5.toRadians (P5.angleMode setupCanvas) (angle quarterTurns) = PI / 2.
Proof.
  cbn [INR P5.angleMode setupCanvas P5.withAngleMode P5.toRadians angle
       quarterTurns setSymmetry].
  unfold P5.DEG_TO_RAD. field.
Qed.

(** Copy [i] of the loop, both halves as the canvas receives them: the
    reflected one goes through [scale(1, -1)] on top of the copy's matrix. *)
Lemma copy_pair_at (g : Globals)
    (w x1 y1 x2 y2 : R) (col : P5.Color) (c : P5.Canvas) (i : nat) :
  (i < symmetry g)%nat ->
  nth_error (pairs (emitted c (kaleidoscope g w x1 y1 x2 y2 col c))) i
  = Some (segmentUnder (copyMatrix g c i) x1 y1 x2 y2 (P5.mkStyle (Some col) w),
          segmentUnder (P5.mmul (copyMatrix g c i) (P5.scaling 1 (-1)))
                       x1 y1 x2 y2 (P5.mkStyle (Some col) w)).
Proof.
  intros Hi. rewrite kaleidoscope_pairs.
  apply (nth_error_map_seq
           (fun k =>
              (segmentUnder (copyMatrix g c k) x1 y1 x2 y2 (P5.mkStyle (Some col) w),
               segmentUnder (P5.mmul (copyMatrix g c k) (P5.scaling 1 (-1)))
                            x1 y1 x2 y2 (P5.mkStyle (Some col) w)))).
  exact Hi.
Qed.

Lemma copies_of_pair (out : list P5.Line) (i : nat) (r m : P5.Line) :
  nth_error (pairs out) i = Some (r, m) ->
  nth_error (rotatedCopies out) i = Some r
  /\ nth_error (mirroredCopies out) i = Some m.
Proof.
  intros H. unfold rotatedCopies, mirroredCopies.
  rewrite !nth_error_map, H. split; reflexivity.
Qed.

(** C5, amended.  Copy [i] of the loop is drawn under one matrix, the base
    transform turned [i + 1] times by the step angle; the plain copy is the
    input segment under that matrix and the reflected copy is the input
    segment with the y-coordinates of both end points negated (x kept) under
    the same matrix: the reflection is applied to the input, before the
    rotation. *)
Theorem mirrored_copy_is_rotated_negated_input (g : Globals)
    (w x1 y1 x2 y2 : R) (col : P5.Color) (c : P5.Canvas) (i : nat) :
  (i < symmetry g)%nat ->
  let out := emitted c (kaleidoscope g w x1 y1 x2 y2 col c) in
  let pen := P5.mkStyle (Some col) w in
  nth_error (rotatedCopies out) i
    = Some (segmentUnder (copyMatrix g c i) x1 y1 x2 y2 pen)
  /\ nth_error (mirroredCopies out) i
    = Some (segmentUnder (copyMatrix g c i) x1 (- y1) x2 (- y2) pen).
Proof.
  intros Hi. cbv zeta. rewrite <- segmentUnder_flip.
  apply copies_of_pair, copy_pair_at, Hi.
Qed.

Lemma quarter_turns_first : (0 < symmetry quarterTurns)%nat.
Proof. cbn [symmetry quarterTurns setSymmetry]. lia. Qed.

Lemma x_p1_segmentUnder (m : P5.Matrix) (x1 y1 x2 y2 : R) (s : P5.Style) :
  P5.x (P5.p1 (segmentUnder m x1 y1 x2 y2 s)) = P5.ma m * x1 + P5.mc m * y1 + P5.me m.
Proof. reflexivity. Qed.

Lemma x_p1_negateY (l : P5.Line) : P5.x (P5.p1 (negateY l)) = P5.x (P5.p1 l).
Proof. reflexivity. Qed.

Lemma quarter_turn_matrix :
  copyMatrix quarterTurns setupCanvas 0 = P5.mkMatrix 0 1 (-1) 0 0 0.
Proof.
  unfold copyMatrix. rewrite quarter_turn_radians.
  apply matrix_eq;
    cbn [P5.mmul P5.rotation P5.ctm setupCanvas P5.createCanvas P5.withAngleMode
         P5.identity P5.ma P5.mb P5.mc P5.md P5.me P5.mf];
    rewrite ?cos_PI2, ?sin_PI2; ring.
Qed.

(** C5, as stated, fails: with four copies the first rotated copy runs from
    (-5, 0) to (-5, 10) and its reflected partner from (5, 0) to (5, 10):
    the x-coordinates are negated and the y-coordinates kept. *)
Lemma mirrored_copy_is_not_negateY_of_rotated :
  ~ (forall (i : nat) (r m : P5.Line),
       nth_error (rotatedCopies quarterTurnOutput) i = Some r ->
       nth_error (mirroredCopies quarterTurnOutput) i = Some m ->
       m = negateY r).
Proof.
  intros H.
  destruct (copies_of_pair _ _ _ _
              (copy_pair_at quarterTurns 1.5 0 5 10 5 (P5.mkColor 0 0 0 1)
                 setupCanvas 0 quarter_turns_first)) as [Hr Hm].
  specialize (H 0%nat _ _ Hr Hm).
  apply (f_equal (fun l => P5.x (P5.p1 l))) in H.
  rewrite segmentUnder_flip in H.
  rewrite x_p1_negateY, !x_p1_segmentUnder, quarter_turn_matrix in H.
  cbn [P5.ma P5.mc P5.me] in H. lra.
Qed.

Lemma mirrored_copy_is_rotated_negated_input_witness :
  (0 < symmetry quarterTurns)%nat
  /\ nth_error (mirroredCopies quarterTurnOutput) 0
     = Some (segmentUnder (copyMatrix quarterTurns setupCanvas 0) 0 (- 5) 10 (- 5)
               (P5.mkStyle (Some (P5.mkColor 0 0 0 1)) 1.5)).
Proof.
  split.
  - exact quarter_turns_first.
  - apply (mirrored_copy_is_rotated_negated_input
             quarterTurns 1.5 0 5 10 5 (P5.mkColor 0 0 0 1) setupCanvas 0).
    exact quarter_turns_first.
Defined.

Lemma geometry_segmentUnder (m : P5.Matrix) (x1 y1 x2 y2 : R) (s : P5.Style) :
  geometry (segmentUnder m x1 y1 x2 y2 s)
  = (P5.transform m (P5.createVector x1 y1), P5.transform m (P5.createVector x2 y2)).
Proof. reflexivity. Qed.

Lemma turned_full (m0 : P5.Matrix) (n : nat) (x1 y1 x2 y2 : R) :
  n <> 0%nat -> turned m0 n x1 y1 x2 y2 n = turned m0 n x1 y1 x2 y2 0.
Proof.
  intros Hn. unfold turned.
  rewrite (full_turn_radians n Hn), rotation_full_turn.
  cbn [INR]. rewrite Rmult_0_l. reflexivity.
Qed.

Lemma independentCopies_turned (m0 : P5.Matrix) (n : nat) (x1 y1 x2 y2 : R) :
  independentCopies m0 n x1 y1 x2 y2 = map (turned m0 n x1 y1 x2 y2) (seq 0 n).
Proof.
  unfold independentCopies. apply map_ext. intros i. unfold turned.
  replace (P5.toRadians P5.DEGREES (INR i * (360 / INR n)))
    with (INR i * P5.toRadians P5.DEGREES (360 / INR n))
    by (unfold P5.toRadians; ring).
  reflexivity.
Qed.

Lemma rotated_copies_turned (g0 : Globals) (n : nat) (w x1 y1 x2 y2 : R)
    (col : P5.Color) (c : P5.Canvas) :
  P5.angleMode c = P5.DEGREES ->
  map geometry
    (rotatedCopies (emitted c (kaleidoscope (setSymmetry n g0) w x1 y1 x2 y2 col c)))
  = map (turned (P5.ctm c) n x1 y1 x2 y2) (seq 1 n).
Proof.
  intros Hdeg. unfold rotatedCopies.
  rewrite kaleidoscope_pairs, !map_map, <- seq_shift, map_map.
  apply map_ext. intros i. cbn [fst]. rewrite geometry_segmentUnder.
  unfold turned, copyMatrix. rewrite Hdeg. reflexivity.
Qed.

(** C6. With the step angle [360 / n] degrees that the frame sets, the
    rotated copies the loop draws by turning the running transform once per
    iteration are, up to their order, the copies obtained by rotating the
    input segment by [i * (360 / n)] degrees from the frame's base transform,
    each on its own, for [i] from 0 to [n - 1]; and after its [n] turns the
    loop leaves the transform exactly where it found it.  (Numbers are real
    numbers here, so the full turn is exact.) *)
Theorem accumulated_rotation_matches_independent (g0 : Globals) (n : nat)
    (w x1 y1 x2 y2 : R) (col : P5.Color) (c : P5.Canvas) :
  (2 <= n)%nat ->
  P5.angleMode c = P5.DEGREES ->
  let c' := kaleidoscope (setSymmetry n g0) w x1 y1 x2 y2 col c in
  Permutation (map geometry (rotatedCopies (emitted c c')))
              (independentCopies (P5.ctm c) n x1 y1 x2 y2)
  /\ P5.ctm c' = P5.ctm c.
Proof.
  intros Hn Hdeg. cbv zeta.
  assert (Hn0 : n <> 0%nat) by lia.
  split.
  - rewrite (rotated_copies_turned g0 n w x1 y1 x2 y2 col c Hdeg).
    rewrite independentCopies_turned.
    destruct n as [| m]; [contradiction |].
    rewrite seq_S, map_app. cbn [map Nat.add seq].
    rewrite (turned_full (P5.ctm c) (S m) x1 y1 x2 y2 Hn0).
    rewrite <- seq_shift.
    apply Permutation_sym, Permutation_cons_append.
  - unfold kaleidoscope. cbn [symmetry setSymmetry]. rewrite loop_ctm.
    cbn [angle setSymmetry]. rewrite Hdeg, (full_turn_radians n Hn0).
    rewrite rotation_full_turn. apply mmul_rotation_0.
Qed.

Lemma accumulated_rotation_matches_independent_witness :
  (2 <= 4)%nat
  /\ P5.angleMode setupCanvas = P5.DEGREES
  /\ Permutation
       (map geometry (rotatedCopies quarterTurnOutput))
       (independentCopies (P5.ctm setupCanvas) 4 0 5 10 5).
Proof.
  split; [lia |]. split; [reflexivity |].
  apply (accumulated_rotation_matches_independent
           (setupGlobals theHexPalette None) 4 1.5 0 5 10 5
           (P5.mkColor 0 0 0 1) setupCanvas).
  - lia.
  - reflexivity.
Defined.

(** ** Colour cycling: claim C8 *)

Lemma Int_part_unique (r : R) (z : Z) : IZR z <= r < IZR z + 1 -> Int_part r = z.
Proof.
  intros [Hl Hu]. symmetry. apply Int_part_spec. split; lra.
Qed.

Lemma Int_part_bounds (r : R) : IZR (Int_part r) <= r < IZR (Int_part r) + 1.
Proof. destruct (base_Int_part r) as [Hl Hu]. split; lra. Qed.

(** For a non-negative dividend [%] lands in [0, b). *)
Lemma rem_nonneg (a b : R) :
  0 <= a -> 0 < b -> exists v, JS.rem a b = Some v /\ 0 <= v < b.
Proof.
  intros Ha Hb. unfold JS.rem.
  destruct (Req_dec_T b 0) as [E | _]; [lra |].
  eexists. split; [reflexivity |].
  assert (Hq : 0 <= a / b) by (apply Rmult_le_pos; [lra | left; apply Rinv_0_lt_compat; lra]).
  unfold JS.trunc. destruct (Rle_dec 0 (a / b)) as [_ | N]; [| contradiction].
  destruct (Int_part_bounds (a / b)) as [Hl Hu].
  assert (Ea : a = a / b * b) by (field; lra).
  split; nra.
Qed.

Lemma index_in_range {A : Type} (arr : list A) (i : Z) :
  (0 <= i < Z.of_nat (List.length arr))%Z -> exists v, JS.index arr i = Some v.
Proof.
  intros [Hl Hu]. unfold JS.index.
  destruct (Z.ltb_spec i 0) as [N | _]; [lia |].
  destruct (nth_error arr (Z.to_nat i)) as [v |] eqn:E.
  - exists v. reflexivity.
  - apply nth_error_None in E. lia.
Qed.

Lemma floor_in_range (v : R) (n : nat) :
  0 <= v < INR n -> (0 <= JS.floor v < Z.of_nat n)%Z.
Proof.
  intros [Hl Hu]. unfold JS.floor.
  destruct (Int_part_bounds v) as [Fl Fu].
  rewrite INR_IZR_INZ in Hu.
  split.
  - assert (H : (-1 < Int_part v)%Z) by (apply lt_IZR; lra). lia.
  - apply lt_IZR. lra.
Qed.

(** With a palette and a non-negative cursor the blend is defined. *)
Lemma paletteColor_defined (palette : list P5.Color) (v : R) :
  palette <> [] -> 0 <= v -> exists col, paletteColor palette v = JS.Ok col.
Proof.
  intros Hp Hv. unfold paletteColor.
  assert (Hlen : (0 < List.length palette)%nat)
    by (destruct palette; [contradiction | simpl; lia]).
  assert (HL : 0 < INR (List.length palette)) by (apply lt_0_INR; exact Hlen).
  destruct (rem_nonneg v _ Hv HL) as [tc [E Htc]]. rewrite E.
  pose proof (floor_in_range tc _ Htc) as Hi.
  destruct (index_in_range palette (JS.floor tc) Hi) as [a Ea].
  assert (Hj : (0 <= Z.rem (JS.floor tc + 1) (Z.of_nat (List.length palette))
                < Z.of_nat (List.length palette))%Z)
    by (apply Z.rem_bound_pos; lia).
  destruct (index_in_range palette _ Hj) as [b Eb].
  cbv zeta. rewrite Ea, Eb. cbn [P5.lerpColor]. eexists. reflexivity.
Qed.

Lemma lerp_same (a amt : R) : P5.lerp a a amt = a.
Proof. unfold P5.lerp. ring. Qed.

(** A palette of one colour read at a non-negative cursor gives that colour. *)
Lemma paletteColor_single (col : P5.Color) (v : R) :
  0 <= v -> paletteColor [col] v = JS.Ok col.
Proof.
  intros Hv. unfold paletteColor. cbn [List.length].
  destruct (rem_nonneg v (INR 1) Hv ltac:(cbn [INR]; lra)) as [tc [E Htc]].
  rewrite E. cbv zeta.
  pose proof (floor_in_range tc 1 Htc) as Hi.
  assert (E0 : JS.floor tc = 0%Z) by lia. rewrite E0.
  cbn [Z.add Z.of_nat Pos.of_succ_nat Z.rem Z.quotrem Z.pos_sub].
  change (Z.rem 1 1) with 0%Z.
  cbn [JS.index Z.ltb Z.compare Z.to_nat nth_error P5.lerpColor].
  rewrite !lerp_same. destruct col; reflexivity.
Qed.

(** The blend at the negative cursor [-1/2]: the remainder is [-1/2], its
    floor [-1], and [palette[-1]] is [undefined]. *)
Lemma paletteColor_negative_half (col : P5.Color) :
  paletteColor [col] (- (1 / 2) + 0) = JS.Throw JS.TypeError.
Proof.
  unfold paletteColor, JS.rem. cbn [List.length INR].
  destruct (Req_dec_T 1 0) as [E | _]; [lra |].
  replace ((- (1 / 2) + 0) / 1) with (- (1 / 2)) by field.
  unfold JS.trunc. destruct (Rle_dec 0 (- (1 / 2))) as [N | _]; [lra |].
  rewrite (Int_part_unique (- - (1 / 2)) 0) by (simpl; lra).
  cbv zeta. unfold JS.floor.
  rewrite (Int_part_unique (- (1 / 2) + 0 - 1 * IZR (- 0)) (-1)) by (simpl; lra).
  reflexivity.
Qed.

(** C8, as stated, fails: at cursor [-1/2] and speed 0 the remainder is
    [-1/2], its floor is [-1], [palette[-1]] is [undefined] and [lerpColor]
    raises a [TypeError]. *)
Lemma single_palette_negative_cursor_throws :
  snd (SinusoidalDrawer.nextColor negativeCursor) = JS.Throw JS.TypeError.
Proof.
  unfold SinusoidalDrawer.nextColor, SinusoidalDrawer.advanceColor, negativeCursor.
  cbn [snd SinusoidalDrawer.palette SinusoidalDrawer.colorInterpolation
       SinusoidalDrawer.colorInterpolationSpeed].
  apply paletteColor_negative_half.
Qed.

(** C8, amended.  For a palette of length 1 and every cursor and speed whose
    sum, the advanced cursor, is not negative, the colour computation of one
    frame completes and returns that single palette colour; the cursor has
    moved on by the speed. *)
Theorem single_palette_returns_its_colour (d : SinusoidalDrawer.instance)
    (col : P5.Color) :
  SinusoidalDrawer.palette d = [col] ->
  0 <= SinusoidalDrawer.colorInterpolation d
       + SinusoidalDrawer.colorInterpolationSpeed d ->
  snd (SinusoidalDrawer.nextColor d) = JS.Ok col
  /\ SinusoidalDrawer.colorInterpolation (fst (SinusoidalDrawer.nextColor d))
     = SinusoidalDrawer.colorInterpolation d
       + SinusoidalDrawer.colorInterpolationSpeed d.
Proof.
  intros Hp Hv. unfold SinusoidalDrawer.nextColor, SinusoidalDrawer.advanceColor.
  cbn [fst snd SinusoidalDrawer.palette SinusoidalDrawer.colorInterpolation].
  rewrite Hp. split; [apply paletteColor_single; exact Hv | reflexivity].
Qed.

Lemma single_palette_returns_its_colour_witness :
  snd (SinusoidalDrawer.nextColor
         (SinusoidalDrawer.mk (P5.createVector 0 0) (P5.createVector 0 0) 20 10 [] []
            [P5.mkColor 0 0 0 1] 0 0.01))
  = JS.Ok (P5.mkColor 0 0 0 1).
Proof.
  apply (single_palette_returns_its_colour
           (SinusoidalDrawer.mk (P5.createVector 0 0) (P5.createVector 0 0) 20 10
              [] [] [P5.mkColor 0 0 0 1] 0 0.01)
           (P5.mkColor 0 0 0 1)).
  - reflexivity.
  - cbn [SinusoidalDrawer.colorInterpolation
         SinusoidalDrawer.colorInterpolationSpeed]. lra.
Defined.

(** ** The trajectory generator: claims C2, C3, C4, C7, C10 *)

Lemma update_paused (g : Globals) (c : P5.Canvas) (d : SinusoidalDrawer.instance) :
  autoPaused g = true -> SinusoidalDrawer.update g c d = d.
Proof. intros Hp. unfold SinusoidalDrawer.update. rewrite Hp. reflexivity. Qed.

Lemma update_running (g : Globals) (c : P5.Canvas) (d : SinusoidalDrawer.instance) :
  autoPaused g = false ->
  SinusoidalDrawer.update g c d
  = SinusoidalDrawer.mk
      (P5.createVector
         (SinusoidalDrawer.sumWaves (P5.angleMode c) (SinusoidalDrawer.xWaves d)
            (SinusoidalDrawer.t d))
         (SinusoidalDrawer.sumWaves (P5.angleMode c) (SinusoidalDrawer.yWaves d)
            (SinusoidalDrawer.t d)))
      (SinusoidalDrawer.pos d)
      (SinusoidalDrawer.t d + SinusoidalDrawer.tIncrement d)
      (SinusoidalDrawer.tIncrement d)
      (map SinusoidalWave.incrementPhase (SinusoidalDrawer.xWaves d))
      (map SinusoidalWave.incrementPhase (SinusoidalDrawer.yWaves d))
      (SinusoidalDrawer.palette d) (SinusoidalDrawer.colorInterpolation d)
      (SinusoidalDrawer.colorInterpolationSpeed d).
Proof. intros Hp. unfold SinusoidalDrawer.update. rewrite Hp. reflexivity. Qed.

(** The two ways [draw] ends without raising. *)
Lemma draw_suppressed (g : Globals) (c : P5.Canvas) (d : SinusoidalDrawer.instance) :
  let u := SinusoidalDrawer.update g c d in
  SinusoidalDrawer.t u <= SinusoidalDrawer.tIncrement u ->
  SinusoidalDrawer.draw g c d
  = (SinusoidalDrawer.setPrevPos (SinusoidalDrawer.pos u) u, c, JS.Normal).
Proof.
  cbv zeta. intros H. unfold SinusoidalDrawer.draw.
  rewrite (proj2 (le_true_iff _ _) H). reflexivity.
Qed.

Lemma draw_reaches_loop (g : Globals) (c : P5.Canvas) (d : SinusoidalDrawer.instance) :
  let u := SinusoidalDrawer.update g c d in
  SinusoidalDrawer.tIncrement u < SinusoidalDrawer.t u ->
  cyclerOk u ->
  exists col,
    SinusoidalDrawer.draw g c d
    = (SinusoidalDrawer.advanceColor u,
       kaleidoscope g (liveStrokeWeight g)
         (P5.x (SinusoidalDrawer.pos u)) (P5.y (SinusoidalDrawer.pos u))
         (P5.x (SinusoidalDrawer.prevPos u)) (P5.y (SinusoidalDrawer.prevPos u))
         col c,
       JS.Normal).
Proof.
  cbv zeta. intros H [Hp [Hc Hs]]. unfold SinusoidalDrawer.draw.
  rewrite (proj2 (le_false_iff _ _) H).
  unfold SinusoidalDrawer.nextColor.
  destruct (paletteColor_defined
              (SinusoidalDrawer.palette
                 (SinusoidalDrawer.advanceColor (SinusoidalDrawer.update g c d)))
              (SinusoidalDrawer.colorInterpolation
                 (SinusoidalDrawer.advanceColor (SinusoidalDrawer.update g c d))))
    as [col E].
  - exact Hp.
  - cbn [SinusoidalDrawer.colorInterpolation SinusoidalDrawer.advanceColor]. lra.
  - exists col. rewrite E. reflexivity.
Qed.

Lemma cyclerOk_update (g : Globals) (c : P5.Canvas) (d : SinusoidalDrawer.instance) :
  cyclerOk d -> cyclerOk (SinusoidalDrawer.update g c d).
Proof.
  intros H. unfold SinusoidalDrawer.update.
  destruct (autoPaused g); [exact H | exact H].
Qed.

Lemma cyclerOk_advanceColor (d : SinusoidalDrawer.instance) :
  cyclerOk d -> cyclerOk (SinusoidalDrawer.advanceColor d).
Proof.
  intros [Hp [Hc Hs]]. repeat split; cbn; try assumption. lra.
Qed.












(** C4. While the pause flag is set, [update] returns the generator it was
    given: the time, the position, the previous position and the phase of
    every x- and y-oscillator are what they were. *)
Theorem paused_update_changes_nothing (g : Globals) (c : P5.Canvas)
    (d : SinusoidalDrawer.instance) :
  autoPaused g = true ->
  let d' := SinusoidalDrawer.update g c d in
  SinusoidalDrawer.t d' = SinusoidalDrawer.t d
  /\ SinusoidalDrawer.pos d' = SinusoidalDrawer.pos d
  /\ SinusoidalDrawer.prevPos d' = SinusoidalDrawer.prevPos d
  /\ map SinusoidalWave.phase (SinusoidalDrawer.xWaves d')
     = map SinusoidalWave.phase (SinusoidalDrawer.xWaves d)
  /\ map SinusoidalWave.phase (SinusoidalDrawer.yWaves d')
     = map SinusoidalWave.phase (SinusoidalDrawer.yWaves d)
  /\ d' = d.
Proof.
  intros Hp. cbv zeta. rewrite (update_paused g c d Hp). repeat split.
Qed.

Lemma paused_update_changes_nothing_witness :
  autoPaused pausedGlobals = true
  /\ SinusoidalDrawer.update pausedGlobals setupCanvas (scenario [black])
     = scenario [black].
Proof.
  split; [reflexivity |].
  apply (paused_update_changes_nothing pausedGlobals setupCanvas (scenario [black])).
  reflexivity.
Defined.




(** ** The abstract base class: claim C9 *)

(** C9. On the abstract base class both methods end abruptly, in every state:
    [update] and [draw] raise an [Error] that names the missing method, the
    object and the canvas being left as they were; neither completes
    normally. *)
Theorem abstract_drawer_methods_throw (g : Globals) (c : P5.Canvas)
    (d : ProceduralDrawer.instance) :
  update g c d
  = (d, JS.Abrupt (JS.Err "Method 'update()' must be implemented by subclass"))
  /\ draw g c d
     = (d, c, JS.Abrupt (JS.Err "Method 'draw()' must be implemented by subclass"))
  /\ snd (update g c d) <> JS.Normal
  /\ snd (draw g c d) <> JS.Normal.
Proof. repeat split; discriminate. Qed.

(** ** The oscillator and the default construction: claims C2, C7 *)

(** Whichever way [draw] ends, the trajectory part of the object is the one
    [update] computed. *)
Lemma draw_trajectory (g : Globals) (c : P5.Canvas) (d : SinusoidalDrawer.instance) :
  let d' := fst (fst (SinusoidalDrawer.draw g c d)) in
  let u := SinusoidalDrawer.update g c d in
  SinusoidalDrawer.pos d' = SinusoidalDrawer.pos u
  /\ SinusoidalDrawer.t d' = SinusoidalDrawer.t u
  /\ SinusoidalDrawer.tIncrement d' = SinusoidalDrawer.tIncrement u
  /\ SinusoidalDrawer.xWaves d' = SinusoidalDrawer.xWaves u
  /\ SinusoidalDrawer.yWaves d' = SinusoidalDrawer.yWaves u.
Proof.
  cbv zeta. unfold SinusoidalDrawer.draw.
  destruct (JS.le _ _).
  - repeat split.
  - unfold SinusoidalDrawer.nextColor.
    destruct (paletteColor _ _); repeat split.
Qed.

Lemma sumWaves_nil (m : P5.AngleMode) (time : R) :
  SinusoidalDrawer.sumWaves m [] time = 0.
Proof. reflexivity. Qed.

Lemma sumWaves_one (m : P5.AngleMode) (wv : SinusoidalWave.instance) (time : R) :
  SinusoidalDrawer.sumWaves m [wv] time = 0 + SinusoidalWave.value m wv time.
Proof. reflexivity. Qed.

Lemma value_sin (m : P5.AngleMode) (radius freq phase phaseInc time : R) :
  SinusoidalWave.value m (SinusoidalWave.mk radius freq phase phaseInc "sin") time
  = sin (P5.toRadians m (time * freq + phase)) * radius.
Proof. reflexivity. Qed.

Lemma value_cos (m : P5.AngleMode) (radius freq phase phaseInc time : R) :
  SinusoidalWave.value m (SinusoidalWave.mk radius freq phase phaseInc "cos") time
  = cos (P5.toRadians m (time * freq + phase)) * radius.
Proof. reflexivity. Qed.

(** The first two positions of the scenario, the pause flag clear. *)
Lemma scenario_positions (g : Globals) (palette : list P5.Color) :
  autoPaused g = false ->
  SinusoidalDrawer.pos (SinusoidalDrawer.frames 1 g setupCanvas (scenario palette))
  = P5.createVector 0 0
  /\ SinusoidalDrawer.pos (SinusoidalDrawer.frames 2 g setupCanvas (scenario palette))
     = P5.createVector (100 * sin (PI / 180)) 0.
Proof.
  intros Hrun.
  cbn [SinusoidalDrawer.frames].
  destruct (draw_trajectory g setupCanvas (scenario palette))
    as [P1 [T1 [I1 [X1 Y1]]]].
  rewrite (update_running g _ _ Hrun) in P1, T1, I1, X1, Y1.
  cbn [SinusoidalDrawer.pos SinusoidalDrawer.t SinusoidalDrawer.tIncrement
       SinusoidalDrawer.xWaves SinusoidalDrawer.yWaves scenario map
       SinusoidalWave.incrementPhase SinusoidalWave.radius SinusoidalWave.freq
       SinusoidalWave.phase SinusoidalWave.phaseInc SinusoidalWave.mode]
    in P1, T1, I1, X1, Y1.
  rewrite sumWaves_nil, sumWaves_one, value_sin in P1.
  split.
  - rewrite P1. f_equal.
    replace (P5.toRadians (P5.angleMode setupCanvas) (0 * 1 + 0)) with 0
      by (cbn [P5.toRadians P5.angleMode setupCanvas P5.withAngleMode]; ring).
    rewrite sin_0. ring.
  - destruct (draw_trajectory g setupCanvas
                (fst (fst (SinusoidalDrawer.draw g setupCanvas (scenario palette)))))
      as [P2 _].
    rewrite P2, (update_running g _ _ Hrun).
    cbn [SinusoidalDrawer.pos]. rewrite T1, X1, Y1.
    unfold SinusoidalWave.incrementPhase.
    cbn [SinusoidalWave.radius SinusoidalWave.freq SinusoidalWave.phase
         SinusoidalWave.phaseInc SinusoidalWave.mode].
    rewrite sumWaves_nil, sumWaves_one, value_sin.
    f_equal.
    replace (P5.toRadians (P5.angleMode setupCanvas) ((0 + 1) * 1 + (0 + 0)))
      with (PI / 180)
      by (cbn [P5.toRadians P5.angleMode setupCanvas P5.withAngleMode];
          unfold P5.DEG_TO_RAD; field).
    ring.
Qed.

(** C2, as stated, fails: [setup] switches the angle mode to degrees, so the
    oscillator of the scenario gives [100 sin(1 degree)] at time 1, not
    [100 sin(1 radian)], and the second position of the scenario has an
    x-coordinate below 2, far from 84.15. *)
Lemma value_is_not_read_in_radians :
  SinusoidalWave.value (P5.angleMode setupCanvas)
    (SinusoidalWave.mk 100 1 0 0 "sin") 1
  <> 100 * sin (1 * 1 + 0)
  /\ P5.x (SinusoidalDrawer.pos
             (SinusoidalDrawer.frames 2 runningGlobals setupCanvas (scenario [black])))
     < 2.
Proof.
  pose proof sin_one_degree as [_ Hdeg].
  pose proof sin_one_radian as Hrad.
  split.
  - rewrite value_sin.
    replace (P5.toRadians (P5.angleMode setupCanvas) (1 * 1 + 0)) with (PI / 180)
      by (cbn [P5.toRadians P5.angleMode setupCanvas P5.withAngleMode];
          unfold P5.DEG_TO_RAD; field).
    replace (1 * 1 + 0) with 1 by ring.
    lra.
  - destruct (scenario_positions runningGlobals [black] eq_refl) as [_ E].
    rewrite E. cbn [P5.x]. lra.
Qed.

(** C2, amended.  [value(t)] is a function of the wave, of [t] and of the
    sketch's angle mode alone: the radius times the sine (for mode ["sin"],
    the cosine otherwise) of [t * freq + phase] read in that angle mode,
    which [setup] has set to degrees; so in the scenario, the pause flag
    clear, the first position is (0, 0) and the second is
    [(100 sin(1 degree), 0)], about (1.745, 0). *)
Theorem value_reads_degrees (g : Globals) (palette : list P5.Color)
    (wv : SinusoidalWave.instance) (time : R) :
  autoPaused g = false ->
  SinusoidalWave.value (P5.angleMode setupCanvas) wv time
  = SinusoidalWave.radius wv
    * (if String.eqb (SinusoidalWave.mode wv) "sin"
       then sin ((time * SinusoidalWave.freq wv + SinusoidalWave.phase wv) * (PI / 180))
       else cos ((time * SinusoidalWave.freq wv + SinusoidalWave.phase wv) * (PI / 180)))
  /\ SinusoidalDrawer.pos (SinusoidalDrawer.frames 1 g setupCanvas (scenario palette))
     = P5.createVector 0 0
  /\ SinusoidalDrawer.pos (SinusoidalDrawer.frames 2 g setupCanvas (scenario palette))
     = P5.createVector (100 * sin (PI / 180)) 0
  /\ 1.74 < 100 * sin (PI / 180) < 1.75.
Proof.
  intros Hrun. split; [| split; [| split]].
  - unfold SinusoidalWave.value, P5.sin, P5.cos.
    cbn [P5.toRadians P5.angleMode setupCanvas P5.withAngleMode].
    unfold P5.DEG_TO_RAD.
    destruct (String.eqb (SinusoidalWave.mode wv) "sin"); ring.
  - apply (scenario_positions g palette Hrun).
  - apply (scenario_positions g palette Hrun).
  - exact sin_one_degree.
Qed.

Lemma value_reads_degrees_witness :
  autoPaused runningGlobals = false
  /\ SinusoidalDrawer.pos
       (SinusoidalDrawer.frames 2 runningGlobals setupCanvas (scenario [black]))
     = P5.createVector (100 * sin (PI / 180)) 0.
Proof.
  split; [reflexivity |].
  apply (value_reads_degrees runningGlobals [black]
           (SinusoidalWave.mk 100 1 0 0 "sin") 1).
  reflexivity.
Defined.

(** The constructor of the later variant builds its waves from two fixed
    configuration lists, whatever the options. *)
Lemma new_waves (color : string -> P5.Color) (g : Globals)
    (opts : SinusoidalDrawer.Opts) (r : Rng) :
  let d := fst (SinusoidalDrawer.new color g opts r) in
  SinusoidalDrawer.xWaves d
  = [SinusoidalWave.mk (drawRadius g * 1.0) 10.0 (P5.random 0 P5.TWO_PI (r 0%nat))
       0.1 "sin"]
  /\ SinusoidalDrawer.yWaves d = []
  /\ SinusoidalDrawer.pos d = P5.createVector 0 0.
Proof. repeat split. Qed.

Lemma yQuiet_update (g : Globals) (c : P5.Canvas) (d : SinusoidalDrawer.instance) :
  yQuiet d -> yQuiet (SinusoidalDrawer.update g c d).
Proof.
  intros [Hw Hy]. unfold SinusoidalDrawer.update.
  destruct (autoPaused g); [split; assumption |].
  split; cbn [SinusoidalDrawer.yWaves SinusoidalDrawer.pos P5.y]; rewrite Hw;
    reflexivity.
Qed.

Lemma yQuiet_draw (g : Globals) (c : P5.Canvas) (d : SinusoidalDrawer.instance) :
  yQuiet d -> yQuiet (fst (fst (SinusoidalDrawer.draw g c d))).
Proof.
  intros H. destruct (draw_trajectory g c d) as [P [_ [_ [_ Y]]]].
  destruct (yQuiet_update g c d H) as [Hw Hy].
  split; [rewrite Y; exact Hw | rewrite P; exact Hy].
Qed.

Lemma yQuiet_frames (k : nat) (g : Globals) (c : P5.Canvas) :
  forall d, yQuiet d -> yQuiet (SinusoidalDrawer.frames k g c d).
Proof.
  induction k as [| k IH]; intros d H; [exact H |].
  cbn [SinusoidalDrawer.frames]. apply IH, yQuiet_draw, H.
Qed.

Lemma sketchJsDefault_waves :
  SketchJs.wave3 sketchJsDefault
  = SinusoidalWave.mk (drawRadius runningGlobals * 0.4) 1.5
      (P5.random 0 P5.TWO_PI 0) (P5.random 0.0005 0.005 0) "cos"
  /\ SketchJs.wave4 sketchJsDefault
     = SinusoidalWave.mk (drawRadius runningGlobals * 0.4) 3.0
         (P5.random 0 P5.TWO_PI 0) (P5.random 0.0005 0.005 0) "cos"
  /\ SketchJs.t sketchJsDefault = 0.
Proof. repeat split. Qed.

(** C7, as stated, fails on [sketch.js]: its constructor, given no options,
    builds two x-axis and two y-axis oscillators, and the first position it
    computes has y = 340, not 0. *)
Lemma sketch_js_default_has_two_waves_per_axis :
  List.length (SketchJs.xWaves sketchJsDefault) = 2%nat
  /\ List.length (SketchJs.yWaves sketchJsDefault) = 2%nat
  /\ P5.y (SketchJs.pos (SketchJs.update runningGlobals setupCanvas sketchJsDefault))
     = 340.
Proof.
  split; [reflexivity |]. split; [reflexivity |].
  destruct sketchJsDefault_waves as [E3 [E4 Et]].
  unfold SketchJs.update.
  change (autoPaused runningGlobals) with false.
  cbn [SketchJs.pos P5.y]. rewrite E3, E4, Et, !value_cos.
  replace (P5.toRadians (P5.angleMode setupCanvas) (0 * 1.5 + P5.random 0 P5.TWO_PI 0))
    with 0
    by (cbn [P5.toRadians P5.angleMode setupCanvas P5.withAngleMode];
        unfold P5.random; ring).
  replace (P5.toRadians (P5.angleMode setupCanvas) (0 * 3.0 + P5.random 0 P5.TWO_PI 0))
    with 0
    by (cbn [P5.toRadians P5.angleMode setupCanvas P5.withAngleMode];
        unfold P5.random; ring).
  rewrite cos_0.
  cbn [drawRadius runningGlobals setupGlobals P5.width setupCanvas
       P5.createCanvas P5.withAngleMode].
  unfold w. lra.
Qed.

Lemma sketch_js_new_modes (color : string -> P5.Color) (g : Globals)
    (opts : SketchJs.Opts) (r : Rng) :
  let d := fst (SketchJs.new color g opts r) in
  SinusoidalWave.mode (SketchJs.wave1 d) = "sin"%string
  /\ SinusoidalWave.mode (SketchJs.wave2 d) = "sin"%string
  /\ SinusoidalWave.mode (SketchJs.wave3 d) = "cos"%string
  /\ SinusoidalWave.mode (SketchJs.wave4 d) = "cos"%string.
Proof.
  cbv zeta. unfold SketchJs.new.
  destruct (SketchJs.fourOf (SketchJs.opt_phases opts)) as [[[[a1 a2] a3] a4] |];
    destruct (SketchJs.fourOf (SketchJs.opt_phiIncs opts)) as [[[[b1 b2] b3] b4] |];
    unfold SketchJs.orRandom;
    destruct (SketchJs.opt_phiInc1 opts), (SketchJs.opt_phiInc2 opts),
             (SketchJs.opt_phiInc3 opts), (SketchJs.opt_phiInc4 opts);
    repeat split.
Qed.

(** C7, amended.  In the later variant, a generator constructed from options
    that carry no oscillator lists has exactly one x-axis oscillator and no
    y-axis oscillator, so its y trajectory is 0 at construction and after
    every number of frames, paused or not.  In [sketch.js] the generator is
    constructed with two x-axis oscillators, both sines, and two y-axis
    oscillators, both cosines. *)
Theorem default_generator_has_one_x_wave_and_no_y_wave
    (color : string -> P5.Color) (g : Globals) (opts : SinusoidalDrawer.Opts)
    (sopts : SketchJs.Opts) (r : Rng) :
  let d := fst (SinusoidalDrawer.new color g opts r) in
  let s := fst (SketchJs.new color g sopts r) in
  (List.length (SinusoidalDrawer.xWaves d) = 1%nat
   /\ SinusoidalDrawer.yWaves d = []
   /\ forall (k : nat) (g' : Globals) (c : P5.Canvas),
        SinusoidalDrawer.yWaves (SinusoidalDrawer.frames k g' c d) = []
        /\ P5.y (SinusoidalDrawer.pos (SinusoidalDrawer.frames k g' c d)) = 0)
  /\ (List.length (SketchJs.xWaves s) = 2%nat
      /\ List.length (SketchJs.yWaves s) = 2%nat
      /\ map SinusoidalWave.mode (SketchJs.xWaves s) = ["sin"; "sin"]%string
      /\ map SinusoidalWave.mode (SketchJs.yWaves s) = ["cos"; "cos"]%string).
Proof.
  cbv zeta. split.
  - destruct (new_waves color g opts r) as [Hx [Hy Hp]].
    split; [rewrite Hx; reflexivity |]. split; [exact Hy |].
    intros k g' c. apply yQuiet_frames. split; [exact Hy |].
    rewrite Hp. reflexivity.
  - destruct (sketch_js_new_modes color g sopts r) as [M1 [M2 [M3 M4]]].
    split; [reflexivity |]. split; [reflexivity |].
    unfold SketchJs.xWaves, SketchJs.yWaves. cbn [map].
    rewrite M1, M2, M3, M4. split; reflexivity.
Qed.

(** ** Around the claims: both drawers, the frame, the constructor *)

(** A call of [SinusoidalDrawer.draw] that reaches the loop adds
    [2 * symmetry] segments. *)
Lemma sinusoidal_draw_emits (g : Globals) (c : P5.Canvas)
    (d : SinusoidalDrawer.instance) :
  let u := SinusoidalDrawer.update g c d in
  SinusoidalDrawer.tIncrement u < SinusoidalDrawer.t u ->
  cyclerOk u ->
  List.length (emitted c (snd (fst (SinusoidalDrawer.draw g c d))))
  = (2 * symmetry g)%nat.
Proof.
  cbv zeta. intros Ht Hok.
  destruct (draw_reaches_loop g c d Ht Hok) as [col E].
  rewrite E. cbn [fst snd]. apply kaleidoscope_emits_count.
Qed.

(** So does a call of [MouseDrawer.draw] with the pointer pressed inside the
    canvas, in either file ([w] is the stroke weight the file uses). *)
Lemma mouse_draw_emits (g : Globals) (w : R) (p : P5.Pointer) (c : P5.Canvas)
    (d : MouseDrawer.instance) :
  MouseDrawer.inside c p = true ->
  MouseDrawer.palette d <> [] ->
  0 <= MouseDrawer.colorInterpolation d + MouseDrawer.colorInterpolationSpeed d ->
  List.length (emitted c (snd (fst (MouseDrawer.draw g w p c d))))
  = (2 * symmetry g)%nat.
Proof.
  intros Hin Hp Hv. unfold MouseDrawer.draw. rewrite Hin.
  cbn [MouseDrawer.palette MouseDrawer.colorInterpolation].
  destruct (paletteColor_defined (MouseDrawer.palette d) _ Hp Hv) as [col E].
  rewrite E. cbn [fst snd]. apply kaleidoscope_emits_count.
Qed.

(** With the pointer up or outside the canvas, [MouseDrawer.draw] does
    nothing. *)
Lemma mouse_draw_idle (g : Globals) (w : R) (p : P5.Pointer) (c : P5.Canvas)
    (d : MouseDrawer.instance) :
  MouseDrawer.inside c p = false -> MouseDrawer.draw g w p c d = (d, c, JS.Normal).
Proof. intros Hout. unfold MouseDrawer.draw. rewrite Hout. reflexivity. Qed.

(** Every frame starts the loop from the same transform: the matrix is reset
    and moved to the centre, whatever the previous frame left. *)
Lemma beginFrame_transform (n : nat) (g : Globals) (c : P5.Canvas) :
  P5.ctm (snd (beginFrame n g c)) = P5.translation (P5.width c / 2) (P5.height c / 2)
  /\ angle (fst (beginFrame n g c)) = 360 / INR n
  /\ symmetry (fst (beginFrame n g c)) = n.
Proof.
  split; [| split; reflexivity].
  apply matrix_eq; cbn; ring.
Qed.

(** A drawer constructed without options has its colour cycler in order, the
    global palette not being empty. *)
Lemma cyclerOk_new (color : string -> P5.Color) (g : Globals) (r : Rng) :
  hexPalette g <> [] ->
  cyclerOk (fst (SinusoidalDrawer.new color g SinusoidalDrawer.noOpts r)).
Proof.
  intros Hp. unfold cyclerOk.
  change (SinusoidalDrawer.palette
            (fst (SinusoidalDrawer.new color g SinusoidalDrawer.noOpts r)))
    with (map color (hexPalette g)).
  change (SinusoidalDrawer.colorInterpolation
            (fst (SinusoidalDrawer.new color g SinusoidalDrawer.noOpts r)))
    with 0.
  change (SinusoidalDrawer.colorInterpolationSpeed
            (fst (SinusoidalDrawer.new color g SinusoidalDrawer.noOpts r)))
    with 0.01.
  split; [| split; lra].
  destruct (hexPalette g); [contradiction | discriminate].
Qed.

(** In [sketch.js] too a paused [update] returns the generator unchanged. *)
Lemma sketch_js_update_paused (g : Globals) (c : P5.Canvas) (d : SketchJs.instance) :
  autoPaused g = true -> SketchJs.update g c d = d.
Proof. intros Hp. unfold SketchJs.update. rewrite Hp. reflexivity. Qed.

(** A generator constructed without a start time starts at time 0, at the
    origin. *)
Lemma new_starts_at_zero (color : string -> P5.Color) (g : Globals)
    (opts : SinusoidalDrawer.Opts) (r : Rng) :
  SinusoidalDrawer.opt_t opts = None ->
  SinusoidalDrawer.t (fst (SinusoidalDrawer.new color g opts r)) = 0
  /\ SinusoidalDrawer.pos (fst (SinusoidalDrawer.new color g opts r))
     = P5.createVector 0 0
  /\ SinusoidalDrawer.prevPos (fst (SinusoidalDrawer.new color g opts r))
     = P5.createVector 0 0.
Proof.
  intros Ht.
  change (SinusoidalDrawer.t (fst (SinusoidalDrawer.new color g opts r)))
    with (SinusoidalDrawer.orElse (SinusoidalDrawer.opt_t opts) 0).
  rewrite Ht. repeat split.
Qed.

(** The whole call of [draw] at the negative cursor: the cursor has moved,
    nothing is drawn and the call ends with the [TypeError]. *)
Lemma negative_cursor_draw_aborts :
  SinusoidalDrawer.draw pausedGlobals setupCanvas negativeCursor
  = (SinusoidalDrawer.advanceColor negativeCursor, setupCanvas,
     JS.Abrupt JS.TypeError).
Proof.
  unfold SinusoidalDrawer.draw.
  rewrite (update_paused pausedGlobals setupCanvas negativeCursor eq_refl).
  assert (H : SinusoidalDrawer.tIncrement negativeCursor
              < SinusoidalDrawer.t negativeCursor)
    by (cbn [SinusoidalDrawer.tIncrement SinusoidalDrawer.t negativeCursor]; lra).
  rewrite (proj2 (le_false_iff _ _) H).
  unfold SinusoidalDrawer.nextColor, SinusoidalDrawer.advanceColor, negativeCursor.
  cbn [SinusoidalDrawer.palette SinusoidalDrawer.colorInterpolation
       SinusoidalDrawer.colorInterpolationSpeed SinusoidalDrawer.pos
       SinusoidalDrawer.prevPos SinusoidalDrawer.t SinusoidalDrawer.tIncrement
       SinusoidalDrawer.xWaves SinusoidalDrawer.yWaves].
  rewrite paletteColor_negative_half. reflexivity.
Qed.

(** * Further properties of the code *)

(** ** Colour cycling *)

Lemma index_of_nat {A : Type} (arr : list A) (k : nat) :
  JS.index arr (Z.of_nat k) = nth_error arr k.
Proof.
  unfold JS.index. destruct (Z.ltb_spec (Z.of_nat k) 0) as [N | _]; [lia |].
  rewrite Nat2Z.id. reflexivity.
Qed.

Lemma index_negative {A : Type} (arr : list A) (i : Z) :
  (i < 0)%Z -> JS.index arr i = None.
Proof.
  intros H. unfold JS.index. destruct (Z.ltb_spec i 0) as [_ | N]; [reflexivity | lia].
Qed.

(** A dividend already in [0, b) is its own remainder. *)
Lemma rem_small (a b : R) : 0 <= a < b -> JS.rem a b = Some a.
Proof.
  intros [Ha Hb]. unfold JS.rem.
  destruct (Req_dec_T b 0) as [E | _]; [lra |].
  assert (Hq : 0 <= a / b < 1).
  { split.
    - apply Rmult_le_pos; [lra | left; apply Rinv_0_lt_compat; lra].
    - apply (Rmult_lt_reg_r b); [lra |]. replace (a / b * b) with a by (field; lra). lra. }
  unfold JS.trunc. destruct (Rle_dec 0 (a / b)) as [_ | N]; [| lra].
  rewrite (Int_part_unique (a / b) 0) by (cbn [IZR]; lra).
  f_equal. cbn [IZR]. ring.
Qed.

(** Adding the divisor to a non-negative dividend keeps the remainder. *)
Lemma rem_shift (a b : R) : 0 <= a -> 0 < b -> JS.rem (a + b) b = JS.rem a b.
Proof.
  intros Ha Hb. unfold JS.rem.
  destruct (Req_dec_T b 0) as [E | _]; [lra |].
  assert (Hq : 0 <= a / b)
    by (apply Rmult_le_pos; [lra | left; apply Rinv_0_lt_compat; lra]).
  assert (Eq : (a + b) / b = a / b + 1) by (field; lra).
  unfold JS.trunc.
  destruct (Rle_dec 0 ((a + b) / b)) as [_ | N]; [| lra].
  destruct (Rle_dec 0 (a / b)) as [_ | N]; [| lra].
  destruct (Int_part_bounds (a / b)) as [Hl Hu].
  rewrite (Int_part_unique ((a + b) / b) (Int_part (a / b) + 1))
    by (rewrite plus_IZR, Eq; cbn [IZR]; lra).
  f_equal. rewrite plus_IZR. cbn [IZR]. ring.
Qed.

(** X1. With a palette and a non-negative cursor the colour of a frame is
    always a blend of two palette entries, with a blend factor in [0, 1). *)
Theorem blend_is_between_palette_entries (palette : list P5.Color) (v : R) :
  palette <> [] -> 0 <= v ->
  exists a b amt,
    In a palette /\ In b palette /\ 0 <= amt < 1
    /\ paletteColor palette v = P5.lerpColor (Some a) (Some b) amt.
Proof.
  intros Hp Hv. unfold paletteColor.
  assert (Hlen : (0 < List.length palette)%nat)
    by (destruct palette; [contradiction | simpl; lia]).
  assert (HL : 0 < INR (List.length palette)) by (apply lt_0_INR; exact Hlen).
  destruct (rem_nonneg v _ Hv HL) as [tc [E Htc]]. rewrite E.
  pose proof (floor_in_range tc _ Htc) as Hi.
  destruct (index_in_range palette (JS.floor tc) Hi) as [a Ea].
  assert (Hj : (0 <= Z.rem (JS.floor tc + 1) (Z.of_nat (List.length palette))
                < Z.of_nat (List.length palette))%Z)
    by (apply Z.rem_bound_pos; lia).
  destruct (index_in_range palette _ Hj) as [b Eb].
  cbv zeta. rewrite Ea, Eb.
  exists a, b, (tc - IZR (JS.floor tc)).
  unfold JS.index in Ea, Eb.
  destruct (Z.ltb (JS.floor tc) 0); [discriminate |].
  destruct (Z.ltb (Z.rem (JS.floor tc + 1) (Z.of_nat (List.length palette))) 0);
    [discriminate |].
  split; [exact (nth_error_In _ _ Ea) |].
  split; [exact (nth_error_In _ _ Eb) |].
  split; [| reflexivity].
  unfold JS.floor. destruct (Int_part_bounds tc) as [Fl Fu]. lra.
Qed.

Lemma blend_is_between_palette_entries_witness :
  exists a b amt,
    In a [black] /\ In b [black] /\ 0 <= amt < 1
    /\ paletteColor [black] 0 = P5.lerpColor (Some a) (Some b) amt.
Proof.
  apply (blend_is_between_palette_entries [black] 0).
  - discriminate.
  - lra.
Defined.

(** X2. At cursor [i + f], [i] a palette position and [0 <= f < 1], the
    colour is the blend of entry [i] with the next entry, the last entry
    being followed by the first, by the factor [f]. *)
Theorem blend_of_neighbours (palette : list P5.Color) (i : nat) (f : R) :
  (i < List.length palette)%nat -> 0 <= f < 1 ->
  paletteColor palette (INR i + f)
  = P5.lerpColor (nth_error palette i)
                 (nth_error palette (S i mod List.length palette)) f.
Proof.
  intros Hi [Hf0 Hf1]. unfold paletteColor.
  assert (Hle : INR i + 1 <= INR (List.length palette)).
  { rewrite <- S_INR. apply le_INR. lia. }
  assert (Hi0 : 0 <= INR i) by apply pos_INR.
  rewrite (rem_small (INR i + f) (INR (List.length palette))) by lra.
  cbv zeta.
  assert (Efl : JS.floor (INR i + f) = Z.of_nat i).
  { unfold JS.floor. apply Int_part_unique. rewrite <- INR_IZR_INZ. lra. }
  rewrite Efl, index_of_nat.
  replace (Z.rem (Z.of_nat i + 1) (Z.of_nat (List.length palette)))
    with (Z.of_nat (S i mod List.length palette)).
  - rewrite index_of_nat, <- INR_IZR_INZ.
    replace (INR i + f - INR i) with f by ring. reflexivity.
  - rewrite Z.rem_mod_nonneg by lia.
    rewrite Nat2Z.inj_mod. f_equal. lia.
Qed.

Lemma blend_of_neighbours_witness :
  paletteColor [black; P5.mkColor 1 1 1 1] (INR 1 + 1 / 2)
  = P5.lerpColor (Some (P5.mkColor 1 1 1 1)) (Some black) (1 / 2).
Proof.
  apply (blend_of_neighbours [black; P5.mkColor 1 1 1 1] 1 (1 / 2)).
  - cbn [List.length]. lia.
  - lra.
Defined.

(** X3. The colour cycle is periodic: moving a non-negative cursor on by the
    length of the palette gives the same colour. *)
Theorem blend_is_periodic (palette : list P5.Color) (v : R) :
  palette <> [] -> 0 <= v ->
  paletteColor palette (v + INR (List.length palette)) = paletteColor palette v.
Proof.
  intros Hp Hv. unfold paletteColor.
  assert (HL : 0 < INR (List.length palette)).
  { apply lt_0_INR. destruct palette; [contradiction | simpl; lia]. }
  rewrite (rem_shift v _ Hv HL). reflexivity.
Qed.

Lemma blend_is_periodic_witness :
  paletteColor [black] (1 / 2 + INR (List.length [black])) = paletteColor [black] (1 / 2).
Proof.
  apply (blend_is_periodic [black] (1 / 2)).
  - discriminate.
  - lra.
Defined.

(** For a negative dividend that is no multiple of the divisor the remainder
    is negative. *)
Lemma rem_negative (a b : R) :
  a < 0 -> 0 < b -> (forall k : Z, a <> b * IZR k) ->
  exists v, JS.rem a b = Some v /\ v < 0.
Proof.
  intros Ha Hb Hmul. unfold JS.rem.
  destruct (Req_dec_T b 0) as [E | _]; [lra |].
  eexists. split; [reflexivity |].
  assert (Hq : a / b < 0).
  { apply (Rmult_lt_reg_r b); [lra |]. replace (a / b * b) with a by (field; lra). lra. }
  unfold JS.trunc. destruct (Rle_dec 0 (a / b)) as [N | _]; [lra |].
  destruct (Int_part_bounds (- (a / b))) as [Hl _].
  rewrite opp_IZR.
  assert (Hle : b * IZR (Int_part (- (a / b))) <= - a).
  { replace (- a) with (b * (- (a / b))) by (field; lra).
    apply Rmult_le_compat_l; lra. }
  destruct (Req_dec (a - b * - IZR (Int_part (- (a / b)))) 0) as [E0 | NE].
  - exfalso. apply (Hmul (- Int_part (- (a / b)))%Z). rewrite opp_IZR. lra.
  - lra.
Qed.

(** X4. A negative cursor that is not a multiple of the palette length makes
    the colour computation raise a [TypeError]: the remainder is negative,
    its floor is a negative index and the palette has no entry there. *)
Theorem negative_cursor_raises (palette : list P5.Color) (v : R) :
  palette <> [] -> v < 0 ->
  (forall k : Z, v <> INR (List.length palette) * IZR k) ->
  paletteColor palette v = JS.Throw JS.TypeError.
Proof.
  intros Hp Hv Hmul. unfold paletteColor.
  assert (HL : 0 < INR (List.length palette)).
  { apply lt_0_INR. destruct palette; [contradiction | simpl; lia]. }
  destruct (rem_negative v _ Hv HL Hmul) as [tc [E Htc]]. rewrite E. cbv zeta.
  assert (Hneg : (JS.floor tc < 0)%Z).
  { unfold JS.floor. destruct (Int_part_bounds tc) as [Fl _].
    apply lt_IZR. cbn [IZR]. lra. }
  rewrite (index_negative palette _ Hneg). reflexivity.
Qed.

Lemma negative_cursor_raises_witness :
  paletteColor [black; P5.mkColor 1 1 1 1] (- (1 / 2)) = JS.Throw JS.TypeError.
Proof.
  apply (negative_cursor_raises [black; P5.mkColor 1 1 1 1] (- (1 / 2))).
  - discriminate.
  - lra.
  - intros k E. cbn [List.length INR] in E.
    assert (E2 : IZR (4 * k) = IZR (-1)).
    { rewrite mult_IZR. cbn [IZR IPR IPR_2]. lra. }
    apply eq_IZR in E2. lia.
Defined.

Lemma nextColor_frozen (d : SinusoidalDrawer.instance) :
  SinusoidalDrawer.colorInterpolationSpeed d = 0 ->
  fst (SinusoidalDrawer.nextColor d) = d.
Proof.
  intros H. unfold SinusoidalDrawer.nextColor, SinusoidalDrawer.advanceColor.
  cbn [fst]. destruct d as [p q t ti xs ys pal ci sp]. cbn in *. subst sp.
  f_equal. ring.
Qed.

(** X5. With a colour speed of 0 the cursor stays where it is: however often
    the colour is asked for, the drawer is unchanged and the answer is the
    same. *)
Theorem zero_speed_freezes_colour (d : SinusoidalDrawer.instance) (k : nat) :
  SinusoidalDrawer.colorInterpolationSpeed d = 0 ->
  Nat.iter k (fun s => fst (SinusoidalDrawer.nextColor s)) d = d
  /\ snd (SinusoidalDrawer.nextColor
            (Nat.iter k (fun s => fst (SinusoidalDrawer.nextColor s)) d))
     = paletteColor (SinusoidalDrawer.palette d) (SinusoidalDrawer.colorInterpolation d).
Proof.
  intros H.
  assert (Hk : Nat.iter k (fun s => fst (SinusoidalDrawer.nextColor s)) d = d).
  { set (f := fun s => fst (SinusoidalDrawer.nextColor s)).
    induction k as [| k IH]; [reflexivity |].
    change (Nat.iter (S k) f d) with (f (Nat.iter k f d)).
    rewrite IH. apply nextColor_frozen, H. }
  split; [exact Hk |]. rewrite Hk.
  pose proof (nextColor_frozen d H) as E.
  unfold SinusoidalDrawer.nextColor in *. cbn [fst snd] in *. rewrite E.
  reflexivity.
Qed.

Lemma zero_speed_freezes_colour_witness :
  Nat.iter 3 (fun s => fst (SinusoidalDrawer.nextColor s)) negativeCursor
  = negativeCursor.
Proof.
  apply (zero_speed_freezes_colour negativeCursor 3). reflexivity.
Defined.

(** ** The pointer-driven drawer *)

Lemma lt_false_iff (a b : R) : JS.lt a b = false <-> b <= a.
Proof.
  unfold JS.lt. destruct (Rlt_dec a b) as [H | H]; split; intros H'.
  - discriminate.
  - lra.
  - lra.
  - reflexivity.
Qed.

Lemma lt_true_iff (a b : R) : JS.lt a b = true <-> a < b.
Proof.
  unfold JS.lt. destruct (Rlt_dec a b) as [H | H]; split; intros H'.
  - exact H.
  - reflexivity.
  - discriminate.
  - contradiction.
Qed.

(** X6. With the button up, or the pointer on the border of the canvas or
    beyond it, [MouseDrawer.draw] changes neither the drawer nor the canvas:
    the colour cursor does not move either. *)
Theorem pointer_outside_draws_nothing (g : Globals) (w : R) (p : P5.Pointer)
    (c : P5.Canvas) (d : MouseDrawer.instance) :
  P5.mouseIsPressed p = false
  \/ P5.mouseX p <= 0 \/ P5.width c <= P5.mouseX p
  \/ P5.mouseY p <= 0 \/ P5.height c <= P5.mouseY p ->
  MouseDrawer.draw g w p c d = (d, c, JS.Normal).
Proof.
  intros H. apply mouse_draw_idle. unfold MouseDrawer.inside.
  destruct H as [H | [H | [H | [H | H]]]].
  - rewrite H. reflexivity.
  - rewrite (proj2 (lt_false_iff 0 (P5.mouseX p)) H).
    rewrite andb_false_r. reflexivity.
  - rewrite (proj2 (lt_false_iff (P5.mouseX p) (P5.width c)) H).
    rewrite !andb_false_r. reflexivity.
  - rewrite (proj2 (lt_false_iff 0 (P5.mouseY p)) H).
    rewrite !andb_false_r. reflexivity.
  - rewrite (proj2 (lt_false_iff (P5.mouseY p) (P5.height c)) H).
    rewrite !andb_false_r. reflexivity.
Qed.

Lemma pointer_outside_draws_nothing_witness :
  MouseDrawer.draw runningGlobals 3 (P5.mkPointer true 1000 500 990 500) setupCanvas
    (MouseDrawer.mk [black] 0 0.01)
  = (MouseDrawer.mk [black] 0 0.01, setupCanvas, JS.Normal).
Proof.
  apply (pointer_outside_draws_nothing runningGlobals 3
           (P5.mkPointer true 1000 500 990 500) setupCanvas
           (MouseDrawer.mk [black] 0 0.01)).
  right. right. left.
  cbn [P5.width P5.mouseX setupCanvas P5.createCanvas P5.withAngleMode].
  unfold w. lra.
Defined.

(** X7. With the button down and the pointer strictly inside the canvas, the
    colour cycler in order, [MouseDrawer.draw] moves the cursor on by its
    speed and runs the loop on the segment from the pointer to its previous
    position, both taken relative to the centre of the canvas; the previous
    position is not tested against the canvas. *)
Theorem pointer_inside_draws_centred_segment (g : Globals) (w : R)
    (p : P5.Pointer) (c : P5.Canvas) (d : MouseDrawer.instance) :
  P5.mouseIsPressed p = true ->
  0 < P5.mouseX p < P5.width c ->
  0 < P5.mouseY p < P5.height c ->
  MouseDrawer.palette d <> [] ->
  0 <= MouseDrawer.colorInterpolation d + MouseDrawer.colorInterpolationSpeed d ->
  exists col,
    MouseDrawer.draw g w p c d
    = (MouseDrawer.mk (MouseDrawer.palette d)
         (MouseDrawer.colorInterpolation d + MouseDrawer.colorInterpolationSpeed d)
         (MouseDrawer.colorInterpolationSpeed d),
       kaleidoscope g w
         (P5.mouseX p - P5.width c / 2) (P5.mouseY p - P5.height c / 2)
         (P5.pmouseX p - P5.width c / 2) (P5.pmouseY p - P5.height c / 2)
         col c,
       JS.Normal).
Proof.
  intros Hpress [Hx0 Hx1] [Hy0 Hy1] Hp Hv.
  unfold MouseDrawer.draw, MouseDrawer.inside.
  rewrite Hpress.
  rewrite (proj2 (lt_true_iff _ _) Hx0), (proj2 (lt_true_iff _ _) Hx1).
  rewrite (proj2 (lt_true_iff _ _) Hy0), (proj2 (lt_true_iff _ _) Hy1).
  cbn [Bool.eqb andb MouseDrawer.palette MouseDrawer.colorInterpolation].
  destruct (paletteColor_defined (MouseDrawer.palette d) _ Hp Hv) as [col E].
  rewrite E. exists col. reflexivity.
Qed.

Lemma pointer_inside_draws_centred_segment_witness :
  exists col,
    MouseDrawer.draw runningGlobals 3 (P5.mkPointer true 600 500 1200 500)
      setupCanvas (MouseDrawer.mk [black] 0 0.01)
    = (MouseDrawer.mk [black] (0 + 0.01) 0.01,
       kaleidoscope runningGlobals 3
         (600 - P5.width setupCanvas / 2) (500 - P5.height setupCanvas / 2)
         (1200 - P5.width setupCanvas / 2) (500 - P5.height setupCanvas / 2)
         col setupCanvas,
       JS.Normal).
Proof.
  assert (Hw : P5.width setupCanvas = 1000) by reflexivity.
  assert (Hh : P5.height setupCanvas = 1000) by reflexivity.
  apply (pointer_inside_draws_centred_segment runningGlobals 3
           (P5.mkPointer true 600 500 1200 500) setupCanvas
           (MouseDrawer.mk [black] 0 0.01)).
  - reflexivity.
  - rewrite Hw. cbn [P5.mouseX]. lra.
  - rewrite Hh. cbn [P5.mouseY]. lra.
  - discriminate.
  - cbn [MouseDrawer.colorInterpolation MouseDrawer.colorInterpolationSpeed]. lra.
Defined.

(** ** The trajectory over many frames *)

(** One running call of [draw], on the trajectory part of the object. *)
Lemma draw_running_step (g : Globals) (c : P5.Canvas) (d : SinusoidalDrawer.instance) :
  autoPaused g = false ->
  let d' := fst (fst (SinusoidalDrawer.draw g c d)) in
  SinusoidalDrawer.t d' = SinusoidalDrawer.t d + SinusoidalDrawer.tIncrement d
  /\ SinusoidalDrawer.tIncrement d' = SinusoidalDrawer.tIncrement d
  /\ SinusoidalDrawer.xWaves d'
     = map SinusoidalWave.incrementPhase (SinusoidalDrawer.xWaves d)
  /\ SinusoidalDrawer.yWaves d'
     = map SinusoidalWave.incrementPhase (SinusoidalDrawer.yWaves d)
  /\ SinusoidalDrawer.pos d'
     = P5.createVector
         (SinusoidalDrawer.sumWaves (P5.angleMode c) (SinusoidalDrawer.xWaves d)
            (SinusoidalDrawer.t d))
         (SinusoidalDrawer.sumWaves (P5.angleMode c) (SinusoidalDrawer.yWaves d)
            (SinusoidalDrawer.t d)).
Proof.
  intros Hrun. cbv zeta.
  destruct (draw_trajectory g c d) as [P [T [I [X Y]]]].
  rewrite P, T, I, X, Y, (update_running g c d Hrun). repeat split.
Qed.

Lemma drifted_0 (wv : SinusoidalWave.instance) : drifted 0 wv = wv.
Proof.
  destruct wv as [r f ph inc m]. unfold drifted.
  cbn [SinusoidalWave.radius SinusoidalWave.freq SinusoidalWave.phase
       SinusoidalWave.phaseInc SinusoidalWave.mode INR].
  f_equal. ring.
Qed.

Lemma drifted_S (k : nat) (wv : SinusoidalWave.instance) :
  drifted k (SinusoidalWave.incrementPhase wv) = drifted (S k) wv.
Proof.
  unfold drifted, SinusoidalWave.incrementPhase.
  cbn [SinusoidalWave.radius SinusoidalWave.freq SinusoidalWave.phase
       SinusoidalWave.phaseInc SinusoidalWave.mode].
  rewrite S_INR. f_equal. ring.
Qed.

Lemma map_drifted_0 (ws : list SinusoidalWave.instance) : map (drifted 0) ws = ws.
Proof.
  induction ws as [| wv ws IH]; [reflexivity |].
  cbn [map]. rewrite drifted_0, IH. reflexivity.
Qed.

Lemma map_drifted_S (k : nat) (ws : list SinusoidalWave.instance) :
  map (drifted k) (map SinusoidalWave.incrementPhase ws) = map (drifted (S k)) ws.
Proof.
  rewrite map_map. apply map_ext. intros wv. apply drifted_S.
Qed.

(** X8. While the sketch runs, time and phases move linearly: after [k]
    frames the time has grown by [k] time steps and every oscillator is the
    original one with its phase moved on by [k] times its own drift;
    amplitude, frequency, drift and mode never change, nor does the number of
    oscillators. *)
Theorem running_drift_is_linear (g : Globals) (c : P5.Canvas) (k : nat) :
  autoPaused g = false ->
  forall d : SinusoidalDrawer.instance,
    let d' := SinusoidalDrawer.frames k g c d in
    SinusoidalDrawer.t d'
    = SinusoidalDrawer.t d + INR k * SinusoidalDrawer.tIncrement d
    /\ SinusoidalDrawer.tIncrement d' = SinusoidalDrawer.tIncrement d
    /\ SinusoidalDrawer.xWaves d' = map (drifted k) (SinusoidalDrawer.xWaves d)
    /\ SinusoidalDrawer.yWaves d' = map (drifted k) (SinusoidalDrawer.yWaves d).
Proof.
  intros Hrun. induction k as [| k IH]; intros d; cbv zeta.
  - cbn [SinusoidalDrawer.frames INR]. rewrite !map_drifted_0.
    repeat split. ring.
  - cbn [SinusoidalDrawer.frames].
    destruct (draw_running_step g c d Hrun) as [T [I [X [Y _]]]].
    destruct (IH (fst (fst (SinusoidalDrawer.draw g c d)))) as [T' [I' [X' Y']]].
    rewrite T', I', X', Y', T, I, X, Y, !map_drifted_S, S_INR.
    repeat split. ring.
Qed.

Lemma running_drift_is_linear_witness :
  SinusoidalDrawer.t (SinusoidalDrawer.frames 3 runningGlobals setupCanvas midway)
  = SinusoidalDrawer.t midway + INR 3 * SinusoidalDrawer.tIncrement midway.
Proof.
  apply (running_drift_is_linear runningGlobals setupCanvas 3 eq_refl midway).
Defined.

Lemma value_bound (m : P5.AngleMode) (wv : SinusoidalWave.instance) (time : R) :
  Rabs (SinusoidalWave.value m wv time) <= Rabs (SinusoidalWave.radius wv).
Proof.
  unfold SinusoidalWave.value, P5.sin, P5.cos.
  destruct (String.eqb (SinusoidalWave.mode wv) "sin"); rewrite Rabs_mult.
  - pose proof (SIN_bound (P5.toRadians m (time * SinusoidalWave.freq wv
                                             + SinusoidalWave.phase wv))) as [L U].
    assert (H1 : Rabs (sin (P5.toRadians m (time * SinusoidalWave.freq wv
                                               + SinusoidalWave.phase wv))) <= 1)
      by (apply Rabs_le; lra).
    pose proof (Rabs_pos (SinusoidalWave.radius wv)). nra.
  - pose proof (COS_bound (P5.toRadians m (time * SinusoidalWave.freq wv
                                             + SinusoidalWave.phase wv))) as [L U].
    assert (H1 : Rabs (cos (P5.toRadians m (time * SinusoidalWave.freq wv
                                               + SinusoidalWave.phase wv))) <= 1)
      by (apply Rabs_le; lra).
    pose proof (Rabs_pos (SinusoidalWave.radius wv)). nra.
Qed.

Lemma sumWaves_from (m : P5.AngleMode) (ws : list SinusoidalWave.instance)
    (time acc : R) :
  Rabs (fold_left (fun a wv => a + SinusoidalWave.value m wv time) ws acc)
  <= Rabs acc + sumRadius ws.
Proof.
  revert acc. induction ws as [| wv ws IH]; intros acc.
  - cbn [fold_left sumRadius fold_right]. lra.
  - cbn [fold_left]. specialize (IH (acc + SinusoidalWave.value m wv time)).
    pose proof (Rabs_triang acc (SinusoidalWave.value m wv time)).
    pose proof (value_bound m wv time).
    change (sumRadius (wv :: ws))
      with (Rabs (SinusoidalWave.radius wv) + sumRadius ws).
    lra.
Qed.

Lemma sumWaves_bound (m : P5.AngleMode) (ws : list SinusoidalWave.instance) (time : R) :
  Rabs (SinusoidalDrawer.sumWaves m ws time) <= sumRadius ws.
Proof.
  unfold SinusoidalDrawer.sumWaves.
  pose proof (sumWaves_from m ws time 0) as H. rewrite Rabs_R0 in H. lra.
Qed.

Lemma sumRadius_incrementPhase (ws : list SinusoidalWave.instance) :
  sumRadius (map SinusoidalWave.incrementPhase ws) = sumRadius ws.
Proof.
  induction ws as [| wv ws IH]; [reflexivity |].
  change (sumRadius (map SinusoidalWave.incrementPhase (wv :: ws)))
    with (Rabs (SinusoidalWave.radius wv)
          + sumRadius (map SinusoidalWave.incrementPhase ws)).
  rewrite IH. reflexivity.
Qed.

Lemma running_position_bound (g : Globals) (c : P5.Canvas) (k : nat) :
  autoPaused g = false ->
  forall d : SinusoidalDrawer.instance,
    let d' := SinusoidalDrawer.frames (S k) g c d in
    Rabs (P5.x (SinusoidalDrawer.pos d')) <= sumRadius (SinusoidalDrawer.xWaves d)
    /\ Rabs (P5.y (SinusoidalDrawer.pos d')) <= sumRadius (SinusoidalDrawer.yWaves d).
Proof.
  intros Hrun. induction k as [| k IH]; intros d; cbv zeta.
  - cbn [SinusoidalDrawer.frames].
    destruct (draw_running_step g c d Hrun) as [_ [_ [_ [_ P]]]].
    rewrite P. cbn [P5.x P5.y]. split; apply sumWaves_bound.
  - change (SinusoidalDrawer.frames (S (S k)) g c d)
      with (SinusoidalDrawer.frames (S k) g c (fst (fst (SinusoidalDrawer.draw g c d)))).
    destruct (draw_running_step g c d Hrun) as [_ [_ [X [Y _]]]].
    destruct (IH (fst (fst (SinusoidalDrawer.draw g c d)))) as [Bx By].
    rewrite X, sumRadius_incrementPhase in Bx.
    rewrite Y, sumRadius_incrementPhase in By.
    split; assumption.
Qed.

(** X9. While the sketch runs, from the first frame on each coordinate of the
    position stays within the sum of the amplitudes of its axis'
    oscillators, at every frame. *)
Theorem position_within_total_amplitude (g : Globals) (c : P5.Canvas) (k : nat)
    (d : SinusoidalDrawer.instance) :
  autoPaused g = false -> (1 <= k)%nat ->
  Rabs (P5.x (SinusoidalDrawer.pos (SinusoidalDrawer.frames k g c d)))
  <= sumRadius (SinusoidalDrawer.xWaves d)
  /\ Rabs (P5.y (SinusoidalDrawer.pos (SinusoidalDrawer.frames k g c d)))
     <= sumRadius (SinusoidalDrawer.yWaves d).
Proof.
  intros Hrun Hk. destruct k as [| k]; [lia |].
  apply (running_position_bound g c k Hrun d).
Qed.

Lemma position_within_total_amplitude_witness :
  Rabs (P5.x (SinusoidalDrawer.pos
                (SinusoidalDrawer.frames 2 runningGlobals setupCanvas midway)))
  <= sumRadius (SinusoidalDrawer.xWaves midway).
Proof.
  apply (position_within_total_amplitude runningGlobals setupCanvas 2 midway).
  - reflexivity.
  - lia.
Defined.

Lemma sqDistance_origin_bound (p : P5.Vector) (bound : R) :
  Rabs (P5.x p) <= Rabs bound -> P5.y p = 0 -> sqDistance 0 0 p <= bound * bound.
Proof.
  intros Hx Hy. unfold sqDistance. rewrite Hy.
  assert (H : P5.x p * P5.x p <= bound * bound).
  { pose proof (Rsqr_abs (P5.x p)) as E1. pose proof (Rsqr_abs bound) as E2.
    unfold Rsqr in E1, E2. rewrite E1, E2.
    pose proof (Rabs_pos (P5.x p)). pose proof (Rabs_pos bound). nra. }
  lra.
Qed.

(** X10. A generator of the later variant, constructed with any options,
    never leaves the drawing circle it was constructed for while the sketch
    runs: at every frame its position is on the x-axis, within
    [drawRadius] of the centre. *)
Theorem default_generator_stays_in_circle (color : string -> P5.Color)
    (g0 g : Globals) (opts : SinusoidalDrawer.Opts) (r : Rng) (c : P5.Canvas)
    (k : nat) :
  autoPaused g = false ->
  sqDistance 0 0
    (SinusoidalDrawer.pos
       (SinusoidalDrawer.frames k g c (fst (SinusoidalDrawer.new color g0 opts r))))
  <= drawRadius g0 * drawRadius g0.
Proof.
  intros Hrun.
  destruct (new_waves color g0 opts r) as [Hx [Hy Hp]].
  destruct (yQuiet_frames k g c (fst (SinusoidalDrawer.new color g0 opts r)))
    as [_ Hy0].
  { split; [exact Hy | rewrite Hp; reflexivity]. }
  apply sqDistance_origin_bound; [| exact Hy0].
  destruct k as [| k].
  - cbn [SinusoidalDrawer.frames]. rewrite Hp. cbn [P5.x].
    rewrite Rabs_R0. apply Rabs_pos.
  - destruct (running_position_bound g c k Hrun
                (fst (SinusoidalDrawer.new color g0 opts r))) as [Bx _].
    rewrite Hx in Bx.
    cbn [sumRadius fold_right SinusoidalWave.radius] in Bx.
    replace (drawRadius g0 * 1.0) with (drawRadius g0) in Bx by lra.
    lra.
Qed.

Lemma default_generator_stays_in_circle_witness :
  sqDistance 0 0
    (SinusoidalDrawer.pos
       (SinusoidalDrawer.frames 5 runningGlobals setupCanvas
          (fst (SinusoidalDrawer.new (fun _ => black) runningGlobals
                  SinusoidalDrawer.noOpts (fun _ => 0)))))
  <= drawRadius runningGlobals * drawRadius runningGlobals.
Proof.
  apply (default_generator_stays_in_circle (fun _ => black) runningGlobals
           runningGlobals SinusoidalDrawer.noOpts (fun _ => 0) setupCanvas 5).
  reflexivity.
Defined.

(** ** Construction *)



Lemma random_in_range (lo hi u : R) :
  lo < hi -> 0 <= u < 1 -> lo <= P5.random lo hi u < hi.
Proof. intros Hlh [H0 H1]. unfold P5.random. split; nra. Qed.

(** X12. A wave built from a configuration keeps every field the
    configuration gives; a missing radius is 0.4 times the drawing radius, a
    missing frequency 1, a missing mode ["sin"]; a missing phase lies in
    [0, 2 pi) and a missing drift in [0.0005, 0.005), the raw samples being in
    [0, 1): a random drift is never 0 and never negative. *)
Theorem createWave_fields (g : Globals) (cfg : SinusoidalDrawer.WaveConfig) (r : Rng) :
  (forall n : nat, 0 <= r n < 1) ->
  let wv := fst (SinusoidalDrawer.createWave g cfg r) in
  SinusoidalWave.radius wv
  = SinusoidalDrawer.orElse (SinusoidalDrawer.cfg_radius cfg) (drawRadius g * 0.4)
  /\ SinusoidalWave.freq wv = SinusoidalDrawer.orElse (SinusoidalDrawer.cfg_freq cfg) 1.0
  /\ SinusoidalWave.mode wv
     = SinusoidalDrawer.orElse (SinusoidalDrawer.cfg_mode cfg) "sin"%string
  /\ match SinusoidalDrawer.cfg_phase cfg with
     | Some v => SinusoidalWave.phase wv = v
     | None => 0 <= SinusoidalWave.phase wv < 2 * PI
     end
  /\ match SinusoidalDrawer.cfg_phaseInc cfg with
     | Some v => SinusoidalWave.phaseInc wv = v
     | None => 0.0005 <= SinusoidalWave.phaseInc wv < 0.005
     end.
Proof.
  intros Hr. cbv zeta. unfold SinusoidalDrawer.createWave.
  pose proof PI_bounds as [Hpi _].
  assert (H0 := random_in_range 0 (2 * PI) (r 0%nat) ltac:(lra) (Hr 0%nat)).
  assert (H1 := random_in_range 0.0005 0.005 (r 0%nat) ltac:(lra) (Hr 0%nat)).
  assert (H2 := random_in_range 0.0005 0.005 (r 1%nat) ltac:(lra) (Hr 1%nat)).
  destruct (SinusoidalDrawer.cfg_phase cfg), (SinusoidalDrawer.cfg_phaseInc cfg);
    cbn [sample fst snd SinusoidalWave.new SinusoidalWave.radius SinusoidalWave.freq
         SinusoidalWave.mode SinusoidalWave.phase SinusoidalWave.phaseInc];
    unfold P5.TWO_PI; repeat split; try reflexivity; lra.
Qed.

Lemma createWave_fields_witness :
  0.0005
  <= SinusoidalWave.phaseInc
       (fst (SinusoidalDrawer.createWave runningGlobals
               (SinusoidalDrawer.mkConfig None None None None None) (fun _ => 0)))
  < 0.005.
Proof.
  apply (createWave_fields runningGlobals
           (SinusoidalDrawer.mkConfig None None None None None) (fun _ => 0)).
  intros n. lra.
Defined.

Lemma cyclerOk_setPrevPos (v : P5.Vector) (d : SinusoidalDrawer.instance) :
  cyclerOk d -> cyclerOk (SinusoidalDrawer.setPrevPos v d).
Proof. intros H. exact H. Qed.

(** A call of [draw] on a drawer whose cycler is in order completes normally
    and leaves the cycler in order. *)
Lemma draw_keeps_cycler (g : Globals) (c : P5.Canvas) (d : SinusoidalDrawer.instance) :
  cyclerOk d ->
  snd (SinusoidalDrawer.draw g c d) = JS.Normal
  /\ cyclerOk (fst (fst (SinusoidalDrawer.draw g c d))).
Proof.
  intros Hok. pose proof (cyclerOk_update g c d Hok) as Hu.
  destruct (Rle_dec (SinusoidalDrawer.t (SinusoidalDrawer.update g c d))
                    (SinusoidalDrawer.tIncrement (SinusoidalDrawer.update g c d)))
    as [Hle | Hgt].
  - rewrite (draw_suppressed g c d Hle). cbn [fst snd].
    split; [reflexivity | apply cyclerOk_setPrevPos; exact Hu].
  - destruct (draw_reaches_loop g c d ltac:(lra) Hu) as [col E].
    rewrite E. cbn [fst snd].
    split; [reflexivity | apply cyclerOk_advanceColor; exact Hu].
Qed.

Lemma frames_keep_cycler (k : nat) (g : Globals) (c : P5.Canvas) :
  forall d, cyclerOk d -> cyclerOk (SinusoidalDrawer.frames k g c d).
Proof.
  induction k as [| k IH]; intros d H; [exact H |].
  cbn [SinusoidalDrawer.frames]. apply IH, draw_keeps_cycler, H.
Qed.

Lemma cyclerOk_new_opts (color : string -> P5.Color) (g : Globals)
    (opts : SinusoidalDrawer.Opts) (r : Rng) :
  hexPalette g <> [] ->
  0 <= SinusoidalDrawer.orElse (SinusoidalDrawer.opt_colorInterpolation opts) 0 ->
  0 <= SinusoidalDrawer.orElse (SinusoidalDrawer.opt_colorInterpolationSpeed opts) 0.01 ->
  cyclerOk (fst (SinusoidalDrawer.new color g opts r)).
Proof.
  intros Hp Hc Hs. unfold cyclerOk.
  change (SinusoidalDrawer.colorInterpolation (fst (SinusoidalDrawer.new color g opts r)))
    with (SinusoidalDrawer.orElse (SinusoidalDrawer.opt_colorInterpolation opts) 0).
  change (SinusoidalDrawer.colorInterpolationSpeed
            (fst (SinusoidalDrawer.new color g opts r)))
    with (SinusoidalDrawer.orElse
            (SinusoidalDrawer.opt_colorInterpolationSpeed opts) 0.01).
  split; [| split; assumption].
  change (SinusoidalDrawer.palette (fst (SinusoidalDrawer.new color g opts r)))
    with (map color
            match SinusoidalDrawer.opt_palette opts with
            | Some (h :: tl) => h :: tl
            | _ => hexPalette g
            end).
  destruct (SinusoidalDrawer.opt_palette opts) as [[| h tl] |].
  - destruct (hexPalette g); [contradiction | discriminate].
  - discriminate.
  - destruct (hexPalette g); [contradiction | discriminate].
Qed.

(** X13. A drawer constructed with any options never raises, at any frame,
    provided the global palette is not empty and the cursor and speed given
    as options, if any, are not negative: an empty [opts.palette] falls back
    to the global palette instead of leaving the drawer without colours. *)
Theorem constructed_drawer_never_raises (color : string -> P5.Color)
    (g0 g : Globals) (opts : SinusoidalDrawer.Opts) (r : Rng) (c c' : P5.Canvas)
    (k : nat) :
  hexPalette g0 <> [] ->
  0 <= SinusoidalDrawer.orElse (SinusoidalDrawer.opt_colorInterpolation opts) 0 ->
  0 <= SinusoidalDrawer.orElse (SinusoidalDrawer.opt_colorInterpolationSpeed opts) 0.01 ->
  SinusoidalDrawer.palette (fst (SinusoidalDrawer.new color g0 opts r)) <> []
  /\ snd (SinusoidalDrawer.draw g c'
            (SinusoidalDrawer.frames k g c (fst (SinusoidalDrawer.new color g0 opts r))))
     = JS.Normal.
Proof.
  intros Hp Hc Hs.
  pose proof (cyclerOk_new_opts color g0 opts r Hp Hc Hs) as Hok.
  split; [exact (proj1 Hok) |].
  apply draw_keeps_cycler, frames_keep_cycler, Hok.
Qed.

Lemma constructed_drawer_never_raises_witness :
  SinusoidalDrawer.palette
    (fst (SinusoidalDrawer.new (fun _ => black) runningGlobals
            (SinusoidalDrawer.mkOpts None None (Some []) None None) (fun _ => 0)))
  <> [].
Proof.
  apply (constructed_drawer_never_raises (fun _ => black) runningGlobals
           runningGlobals (SinusoidalDrawer.mkOpts None None (Some []) None None)
           (fun _ => 0) setupCanvas setupCanvas 0).
  - discriminate.
  - cbn [SinusoidalDrawer.orElse SinusoidalDrawer.opt_colorInterpolation]. lra.
  - cbn [SinusoidalDrawer.orElse SinusoidalDrawer.opt_colorInterpolationSpeed]. lra.
Defined.

Lemma stalled_draw (g : Globals) (c : P5.Canvas) (d : SinusoidalDrawer.instance) :
  stalled g d ->
  SinusoidalDrawer.draw g c d
  = (SinusoidalDrawer.setPrevPos
       (SinusoidalDrawer.pos (SinusoidalDrawer.update g c d))
       (SinusoidalDrawer.update g c d),
     c, JS.Normal)
  /\ stalled g (fst (fst (SinusoidalDrawer.draw g c d))).
Proof.
  intros H.
  assert (Hle : SinusoidalDrawer.t (SinusoidalDrawer.update g c d)
                <= SinusoidalDrawer.tIncrement (SinusoidalDrawer.update g c d)
                /\ stalled g (SinusoidalDrawer.update g c d)).
  { destruct (autoPaused g) eqn:Hp.
    - rewrite (update_paused g c d Hp).
      split; [| exact H].
      destruct H as [[_ H] | [H0 H1]]; [exact H | lra].
    - rewrite (update_running g c d Hp).
      destruct H as [[Hp' _] | [H0 H1]]; [congruence |].
      cbn [SinusoidalDrawer.t SinusoidalDrawer.tIncrement].
      split; [lra |]. right.
      cbn [SinusoidalDrawer.t SinusoidalDrawer.tIncrement]. split; lra. }
  destruct Hle as [Hle Hst].
  rewrite (draw_suppressed g c d Hle). cbn [fst].
  split; [reflexivity | exact Hst].
Qed.

Lemma stalled_frames (k : nat) (g : Globals) (c : P5.Canvas) :
  forall d, stalled g d -> stalled g (SinusoidalDrawer.frames k g c d).
Proof.
  induction k as [| k IH]; intros d H; [exact H |].
  cbn [SinusoidalDrawer.frames]. apply IH. apply (stalled_draw g c d H).
Qed.

(** X14. A generator never gets past its first step, and so never draws
    anything nor moves its colour cursor, at any frame, when it is paused
    before its first step or when the draw speed is 0 at a time not above 0:
    the first-frame test [t <= tIncrement] holds again at every call. *)
Theorem stalled_generator_never_draws (g : Globals) (c c' : P5.Canvas)
    (d : SinusoidalDrawer.instance) (k : nat) :
  stalled g d ->
  snd (fst (SinusoidalDrawer.draw g c' (SinusoidalDrawer.frames k g c d))) = c'
  /\ snd (SinusoidalDrawer.draw g c' (SinusoidalDrawer.frames k g c d)) = JS.Normal
  /\ SinusoidalDrawer.colorInterpolation (SinusoidalDrawer.frames k g c d)
     = SinusoidalDrawer.colorInterpolation d.
Proof.
  intros H. pose proof (stalled_frames k g c d H) as Hk.
  destruct (stalled_draw g c' _ Hk) as [E _]. rewrite E. cbn [fst snd].
  split; [reflexivity |]. split; [reflexivity |].
  clear E Hk. revert d H. induction k as [| k IH]; intros d H; [reflexivity |].
  cbn [SinusoidalDrawer.frames].
  destruct (stalled_draw g c d H) as [E Hn].
  rewrite (IH _ Hn), E. cbn [fst].
  unfold SinusoidalDrawer.update. destruct (autoPaused g); reflexivity.
Qed.

Lemma stalled_generator_never_draws_witness :
  stalled pausedGlobals (scenario [black])
  /\ snd (fst (SinusoidalDrawer.draw pausedGlobals setupCanvas
                 (SinusoidalDrawer.frames 7 pausedGlobals setupCanvas
                    (scenario [black]))))
     = setupCanvas.
Proof.
  assert (H : stalled pausedGlobals (scenario [black])).
  { left. split; [reflexivity |].
    cbn [SinusoidalDrawer.t SinusoidalDrawer.tIncrement scenario]. lra. }
  split; [exact H |].
  apply (stalled_generator_never_draws pausedGlobals setupCanvas setupCanvas
           (scenario [black]) 7 H).
Defined.

Lemma fourOf_short (l : list R) : (List.length l < 4)%nat -> SketchJs.fourOf (Some l) = None.
Proof.
  intros H. destruct l as [| a [| b [| c [| d rest]]]]; try reflexivity.
  cbn [List.length] in H. lia.
Qed.

(** X15. In [sketch.js] a [phases] option with fewer than four entries is
    ignored as a whole: all four phases are drawn from the random source, in
    the order of the waves, none of the entries given being used. *)
Theorem short_phases_are_ignored (color : string -> P5.Color) (g : Globals)
    (opts : SketchJs.Opts) (l : list R) (r : Rng) :
  SketchJs.opt_phases opts = Some l -> (List.length l < 4)%nat ->
  let d := fst (SketchJs.new color g opts r) in
  SinusoidalWave.phase (SketchJs.wave1 d) = P5.random 0 P5.TWO_PI (r 0%nat)
  /\ SinusoidalWave.phase (SketchJs.wave2 d) = P5.random 0 P5.TWO_PI (r 1%nat)
  /\ SinusoidalWave.phase (SketchJs.wave3 d) = P5.random 0 P5.TWO_PI (r 2%nat)
  /\ SinusoidalWave.phase (SketchJs.wave4 d) = P5.random 0 P5.TWO_PI (r 3%nat).
Proof.
  intros Hl Hlen. cbv zeta. unfold SketchJs.new.
  rewrite Hl, (fourOf_short l Hlen).
  destruct (SketchJs.fourOf (SketchJs.opt_phiIncs opts)) as [[[[a b] c0] d0] |].
  - repeat split.
  - unfold SketchJs.orRandom.
    destruct (SketchJs.opt_phiInc1 opts), (SketchJs.opt_phiInc2 opts),
             (SketchJs.opt_phiInc3 opts), (SketchJs.opt_phiInc4 opts);
      repeat split.
Qed.

Lemma short_phases_are_ignored_witness :
  SinusoidalWave.phase
    (SketchJs.wave1
       (fst (SketchJs.new (fun _ => black) runningGlobals
               (SketchJs.mkOpts None None None None None None None None None None
                  (Some [1; 2; 3]) None None None None None None None None)
               (fun _ => 0))))
  = P5.random 0 P5.TWO_PI 0.
Proof.
  apply (short_phases_are_ignored (fun _ => black) runningGlobals
           (SketchJs.mkOpts None None None None None None None None None None
              (Some [1; 2; 3]) None None None None None None None None)
           [1; 2; 3] (fun _ => 0)).
  - reflexivity.
  - cbn [List.length]. lia.
Defined.

(** ** The loop and the canvas *)

Lemma loop_frame (g : Globals) (w x1 y1 x2 y2 : R) (col : P5.Color) (n : nat)
    (c : P5.Canvas) :
  let c' := Nat.iter n (kaleidoscopeStep g w x1 y1 x2 y2 col) c in
  P5.stack c' = P5.stack c /\ P5.angleMode c' = P5.angleMode c
  /\ P5.width c' = P5.width c /\ P5.height c' = P5.height c.
Proof.
  cbv zeta. induction n as [| n IH]; [repeat split |].
  change (Nat.iter (S n) (kaleidoscopeStep g w x1 y1 x2 y2 col) c)
    with (kaleidoscopeStep g w x1 y1 x2 y2 col
            (Nat.iter n (kaleidoscopeStep g w x1 y1 x2 y2 col) c)).
  destruct (step_frame g w x1 y1 x2 y2 col
              (Nat.iter n (kaleidoscopeStep g w x1 y1 x2 y2 col) c))
    as [A [St [W H]]].
  destruct IH as [IS [IA [IW IH]]].
  rewrite A, St, W, H. repeat split; assumption.
Qed.

Lemma step_current (g : Globals) (w x1 y1 x2 y2 : R) (col : P5.Color) (c : P5.Canvas) :
  P5.current (kaleidoscopeStep g w x1 y1 x2 y2 col c) = P5.mkStyle (Some col) w.
Proof. reflexivity. Qed.

(** X16. The loop balances its [push] and [pop]: whatever the symmetry, it
    leaves the stack of saved states, the angle mode and the canvas size as
    it found them; after at least one iteration the current stroke is the
    colour and weight of this frame (with symmetry 0 it is untouched), and
    earlier segments are still on the canvas, before the new ones. *)
Theorem loop_is_balanced (g : Globals) (w x1 y1 x2 y2 : R) (col : P5.Color)
    (c : P5.Canvas) :
  let c' := kaleidoscope g w x1 y1 x2 y2 col c in
  P5.stack c' = P5.stack c
  /\ P5.angleMode c' = P5.angleMode c
  /\ P5.width c' = P5.width c /\ P5.height c' = P5.height c
  /\ P5.drawn c' = P5.drawn c ++ emitted c c'
  /\ P5.current c'
     = match symmetry g with
       | O => P5.current c
       | S _ => P5.mkStyle (Some col) w
       end.
Proof.
  cbv zeta. unfold kaleidoscope.
  destruct (loop_frame g w x1 y1 x2 y2 col (symmetry g) c) as [St [A [W H]]].
  split; [exact St |]. split; [exact A |]. split; [exact W |]. split; [exact H |].
  split.
  - unfold emitted. rewrite loop_drawn, skipn_length_app. reflexivity.
  - destruct (symmetry g) as [| n]; [reflexivity |].
    change (Nat.iter (S n) (kaleidoscopeStep g w x1 y1 x2 y2 col) c)
      with (kaleidoscopeStep g w x1 y1 x2 y2 col
              (Nat.iter n (kaleidoscopeStep g w x1 y1 x2 y2 col) c)).
    apply step_current.
Qed.

(** X17. Every segment of one call of the loop is drawn with the same stroke:
    the colour computed for this frame and the stroke weight of this frame. *)
Theorem emitted_segments_share_the_stroke (g : Globals) (w x1 y1 x2 y2 : R)
    (col : P5.Color) (c : P5.Canvas) :
  Forall (fun l => P5.style l = P5.mkStyle (Some col) w)
         (emitted c (kaleidoscope g w x1 y1 x2 y2 col c)).
Proof.
  rewrite kaleidoscope_emitted. apply Forall_flat_map, Forall_forall.
  intros i _. repeat constructor.
Qed.

Lemma copies_as_maps (g : Globals) (w x1 y1 x2 y2 : R) (col : P5.Color)
    (c : P5.Canvas) :
  let out := emitted c (kaleidoscope g w x1 y1 x2 y2 col c) in
  rotatedCopies out
  = map (fun i => segmentUnder (copyMatrix g c i) x1 y1 x2 y2 (P5.mkStyle (Some col) w))
        (seq 0 (symmetry g))
  /\ mirroredCopies out
     = map (fun i => segmentUnder (copyMatrix g c i) x1 (- y1) x2 (- y2)
                                  (P5.mkStyle (Some col) w))
           (seq 0 (symmetry g)).
Proof.
  cbv zeta. unfold rotatedCopies, mirroredCopies.
  rewrite kaleidoscope_pairs, !map_map. cbn [fst snd]. split; [reflexivity |].
  apply map_ext. intros i. apply segmentUnder_flip.
Qed.

Lemma transform_centred (cx cy a px py : R) :
  P5.transform (P5.mmul (P5.translation cx cy) (P5.rotation a)) (P5.createVector px py)
  = P5.createVector (cos a * px - sin a * py + cx) (sin a * px + cos a * py + cy).
Proof. unfold P5.transform. cbn. f_equal; ring. Qed.

Lemma centred_distance (cx cy a px py : R) :
  sqDistance cx cy
    (P5.transform (P5.mmul (P5.translation cx cy) (P5.rotation a))
                  (P5.createVector px py))
  = px * px + py * py.
Proof.
  rewrite transform_centred. unfold sqDistance. cbn [P5.x P5.y].
  pose proof (sin2_cos2 a) as H. unfold Rsqr in H.
  transitivity ((sin a * sin a + cos a * cos a) * (px * px + py * py)); [ring |].
  rewrite H. ring.
Qed.

(** X18. When the loop starts from a transform that only moves the origin to
    a centre, as every frame does, each copy it draws, rotated or reflected,
    has its end points exactly as far from that centre as the end points of
    the input segment are from the origin: every copy of a point lies on one
    circle about the centre. *)
Theorem copies_keep_distance_from_centre (g : Globals) (w x1 y1 x2 y2 cx cy : R)
    (col : P5.Color) (c : P5.Canvas) :
  P5.ctm c = P5.translation cx cy ->
  Forall (fun l => sqDistance cx cy (P5.p1 l) = x1 * x1 + y1 * y1
                   /\ sqDistance cx cy (P5.p2 l) = x2 * x2 + y2 * y2)
         (emitted c (kaleidoscope g w x1 y1 x2 y2 col c)).
Proof.
  intros Hc. rewrite kaleidoscope_emitted. apply Forall_flat_map, Forall_forall.
  intros i _. unfold copyMatrix. rewrite Hc.
  constructor; [| constructor; [| constructor]].
  - unfold segmentUnder. cbn [P5.p1 P5.p2]. rewrite !centred_distance.
    split; reflexivity.
  - rewrite segmentUnder_flip. unfold segmentUnder. cbn [P5.p1 P5.p2].
    rewrite !centred_distance. split; ring.
Qed.

Lemma copies_keep_distance_from_centre_witness :
  Forall (fun l => sqDistance 500 500 (P5.p1 l) = 0 * 0 + 5 * 5
                   /\ sqDistance 500 500 (P5.p2 l) = 10 * 10 + 5 * 5)
         (emitted (P5.translate 500 500 setupCanvas)
            (kaleidoscope quarterTurns 1.5 0 5 10 5 black
               (P5.translate 500 500 setupCanvas))).
Proof.
  apply (copies_keep_distance_from_centre quarterTurns 1.5 0 5 10 5 500 500 black
           (P5.translate 500 500 setupCanvas)).
  apply matrix_eq; cbn; ring.
Defined.

(** The copy that mirrors copy [i]: its turn completes the turn of copy [i]
    to a full turn. *)
Lemma mirror_partner (n i : nat) :
  (i < n)%nat ->
  exists j, (j < n)%nat
    /\ cos (INR (S j) * P5.toRadians P5.DEGREES (360 / INR n))
       = cos (INR (S i) * P5.toRadians P5.DEGREES (360 / INR n))
    /\ sin (INR (S j) * P5.toRadians P5.DEGREES (360 / INR n))
       = - sin (INR (S i) * P5.toRadians P5.DEGREES (360 / INR n)).
Proof.
  intros Hi. assert (Hn : n <> 0%nat) by lia.
  pose proof (full_turn_radians n Hn) as Hfull.
  destruct (Nat.eq_dec (S i) n) as [E | NE].
  - exists i. split; [exact Hi |]. rewrite E, Hfull, cos_2PI, sin_2PI.
    split; [reflexivity | ring].
  - exists (n - 2 - i)%nat. split; [lia |].
    assert (Hsum : INR (S (n - 2 - i)) = INR n - INR (S i)).
    { rewrite <- minus_INR by lia. f_equal. lia. }
    rewrite Hsum.
    replace ((INR n - INR (S i)) * P5.toRadians P5.DEGREES (360 / INR n))
      with (2 * PI - INR (S i) * P5.toRadians P5.DEGREES (360 / INR n))
      by (rewrite <- Hfull; ring).
    rewrite cos_minus, sin_minus, cos_2PI, sin_2PI. split; ring.
Qed.

(** X19. With the step angle [360 / n] degrees of the frame and a transform
    that only moves the origin to a centre, the figure of one call is
    symmetric in the horizontal line through the centre: the mirror image of
    every rotated copy in that line is one of the reflected copies (in
    general not the one drawn in the same iteration). *)
Theorem figure_is_mirror_symmetric (g0 : Globals) (n : nat)
    (w x1 y1 x2 y2 cx cy : R) (col : P5.Color) (c : P5.Canvas) :
  P5.angleMode c = P5.DEGREES ->
  P5.ctm c = P5.translation cx cy ->
  let out := emitted c (kaleidoscope (setSymmetry n g0) w x1 y1 x2 y2 col c) in
  forall r, In r (rotatedCopies out) ->
    exists m, In m (mirroredCopies out)
      /\ P5.p1 m = flipAbout cy (P5.p1 r)
      /\ P5.p2 m = flipAbout cy (P5.p2 r).
Proof.
  intros Hdeg Hc. cbv zeta.
  destruct (copies_as_maps (setSymmetry n g0) w x1 y1 x2 y2 col c) as [Er Em].
  rewrite Er, Em. cbn [symmetry setSymmetry]. intros r Hr.
  apply in_map_iff in Hr. destruct Hr as [i [Hri Hi]].
  apply in_seq in Hi. destruct (mirror_partner n i ltac:(lia)) as [j [Hj [Hcos Hsin]]].
  exists (segmentUnder (copyMatrix (setSymmetry n g0) c j) x1 (- y1) x2 (- y2)
            (P5.mkStyle (Some col) w)).
  split.
  - apply in_map_iff. exists j. split; [reflexivity |]. apply in_seq. lia.
  - subst r. unfold copyMatrix, segmentUnder. cbn [angle setSymmetry P5.p1 P5.p2].
    rewrite Hdeg, Hc, !transform_centred, Hcos, Hsin. unfold flipAbout.
    cbn [P5.x P5.y]. split; f_equal; ring.
Qed.

Lemma figure_is_mirror_symmetric_witness :
  exists m,
    In m (mirroredCopies
            (emitted (P5.translate 500 500 setupCanvas)
               (kaleidoscope (setSymmetry 4 runningGlobals) 1.5 0 5 10 5 black
                  (P5.translate 500 500 setupCanvas))))
    /\ P5.p1 m
       = flipAbout 500
           (P5.p1 (segmentUnder
                     (copyMatrix (setSymmetry 4 runningGlobals)
                        (P5.translate 500 500 setupCanvas) 0)
                     0 5 10 5 (P5.mkStyle (Some black) 1.5)))
    /\ P5.p2 m
       = flipAbout 500
           (P5.p2 (segmentUnder
                     (copyMatrix (setSymmetry 4 runningGlobals)
                        (P5.translate 500 500 setupCanvas) 0)
                     0 5 10 5 (P5.mkStyle (Some black) 1.5))).
Proof.
  apply (figure_is_mirror_symmetric runningGlobals 4 1.5 0 5 10 5 500 500 black
           (P5.translate 500 500 setupCanvas)).
  - reflexivity.
  - apply matrix_eq; cbn; ring.
  - rewrite (proj1 (copies_as_maps (setSymmetry 4 runningGlobals) 1.5 0 5 10 5 black
                      (P5.translate 500 500 setupCanvas))).
    apply in_map_iff. exists 0%nat. split; [reflexivity |].
    cbn [symmetry setSymmetry seq]. left. reflexivity.
Defined.

(** ** Clearing, switching and the frame *)

(** X20. [clearCanvas] leaves no segment on the canvas and paints the vinyl
    disc around the middle of the canvas whatever the transform in force,
    and it gives back the transform, the stroke, the stack of saved states
    and the angle mode exactly as it found them. *)
Theorem clearCanvas_erases_and_restores (v : R) (c : P5.Canvas) :
  let c' := fst (clearCanvas v c) in
  let d := snd (clearCanvas v c) in
  P5.drawn c' = []
  /\ P5.ctm c' = P5.ctm c /\ P5.current c' = P5.current c
  /\ P5.stack c' = P5.stack c /\ P5.angleMode c' = P5.angleMode c
  /\ centre d = P5.createVector (P5.width c / 2) (P5.height c / 2)
  /\ diameter d = v.
Proof.
  cbv zeta. unfold clearCanvas. cbn [fst snd].
  repeat split.
  unfold circle. cbn [centre]. unfold P5.transform. cbn. f_equal; ring.
Qed.

Lemma mouse_draw_keeps_speed (g : Globals) (w : R) (p : P5.Pointer) (c : P5.Canvas)
    (d : MouseDrawer.instance) :
  MouseDrawer.colorInterpolationSpeed (fst (fst (MouseDrawer.draw g w p c d)))
  = MouseDrawer.colorInterpolationSpeed d
  /\ MouseDrawer.palette (fst (fst (MouseDrawer.draw g w p c d)))
     = MouseDrawer.palette d.
Proof.
  unfold MouseDrawer.draw. destruct (MouseDrawer.inside c p); [| split; reflexivity].
  destruct (paletteColor _ _); split; reflexivity.
Qed.

Lemma draw_keeps_speeds (g : Globals) (c : P5.Canvas) (d : SinusoidalDrawer.instance) :
  SinusoidalDrawer.colorInterpolationSpeed (fst (fst (SinusoidalDrawer.draw g c d)))
  = SinusoidalDrawer.colorInterpolationSpeed d
  /\ SinusoidalDrawer.tIncrement (fst (fst (SinusoidalDrawer.draw g c d)))
     = SinusoidalDrawer.tIncrement d.
Proof.
  unfold SinusoidalDrawer.draw.
  assert (Hu : SinusoidalDrawer.colorInterpolationSpeed (SinusoidalDrawer.update g c d)
               = SinusoidalDrawer.colorInterpolationSpeed d
               /\ SinusoidalDrawer.tIncrement (SinusoidalDrawer.update g c d)
                  = SinusoidalDrawer.tIncrement d).
  { unfold SinusoidalDrawer.update. destruct (autoPaused g); split; reflexivity. }
  destruct Hu as [Hs Ht].
  destruct (JS.le _ _).
  - cbn [fst SinusoidalDrawer.setPrevPos SinusoidalDrawer.colorInterpolationSpeed
         SinusoidalDrawer.tIncrement]. split; assumption.
  - unfold SinusoidalDrawer.nextColor. destruct (paletteColor _ _);
      cbn [fst SinusoidalDrawer.advanceColor SinusoidalDrawer.colorInterpolationSpeed
           SinusoidalDrawer.tIncrement]; split; assumption.
Qed.

Lemma drawn_pop (c : P5.Canvas) : P5.drawn (P5.pop c) = P5.drawn c.
Proof. unfold P5.pop. destruct (P5.stack c) as [| [m st] rest]; reflexivity. Qed.

(** The frame, the auto drawer being current. *)
Lemma frame_auto (ui : Controls) (p : P5.Pointer) (wld : World) :
  currentDrawer wld = CurrentAuto ->
  let g := fst (beginFrame (symmetryValue ui)
                  (withStrokeWeightSlider (strokeWeightValue ui) (globals wld))
                  (canvas wld)) in
  let c := P5.push
             (snd (beginFrame (symmetryValue ui)
                     (withStrokeWeightSlider (strokeWeightValue ui) (globals wld))
                     (canvas wld))) in
  let ad := setAutoSpeeds (SinusoidalDrawer.orElse (colorRate ui) 0.01)
              (SinusoidalDrawer.orElse (drawSpeed ui) 0.01) (autoDrawer wld) in
  frame ui p wld
  = (mkWorld g (vinylDiscDiameter wld)
       (endFrame (snd (SinusoidalDrawer.draw g c ad))
          (snd (fst (SinusoidalDrawer.draw g c ad)))) (disc wld)
       (setMouseSpeed (SinusoidalDrawer.orElse (colorRate ui) 0.01) (mouseDrawer wld))
       (fst (fst (SinusoidalDrawer.draw g c ad))) CurrentAuto,
     snd (SinusoidalDrawer.draw g c ad)).
Proof.
  intros H. cbv zeta. unfold frame. rewrite H. cbn [beginFrame fst snd].
  destruct (SinusoidalDrawer.draw _ _ _) as [[ad' c'] res]. reflexivity.
Qed.

Lemma frame_mouse (ui : Controls) (p : P5.Pointer) (wld : World) :
  currentDrawer wld = CurrentMouse ->
  let g := fst (beginFrame (symmetryValue ui)
                  (withStrokeWeightSlider (strokeWeightValue ui) (globals wld))
                  (canvas wld)) in
  let c := P5.push
             (snd (beginFrame (symmetryValue ui)
                     (withStrokeWeightSlider (strokeWeightValue ui) (globals wld))
                     (canvas wld))) in
  let md := setMouseSpeed (SinusoidalDrawer.orElse (colorRate ui) 0.01)
              (mouseDrawer wld) in
  frame ui p wld
  = (mkWorld g (vinylDiscDiameter wld)
       (endFrame (snd (MouseDrawer.draw g (liveStrokeWeight g) p c md))
          (snd (fst (MouseDrawer.draw g (liveStrokeWeight g) p c md)))) (disc wld)
       (fst (fst (MouseDrawer.draw g (liveStrokeWeight g) p c md)))
       (setAutoSpeeds (SinusoidalDrawer.orElse (colorRate ui) 0.01)
          (SinusoidalDrawer.orElse (drawSpeed ui) 0.01) (autoDrawer wld))
       CurrentMouse,
     snd (MouseDrawer.draw g (liveStrokeWeight g) p c md)).
Proof.
  intros H. cbv zeta. unfold frame. rewrite H. cbn [beginFrame fst snd].
  destruct (MouseDrawer.draw _ _ _ _ _) as [[md' c'] res]. reflexivity.
Qed.

(** X21. Whatever happens in a frame, the sliders are live: after it the
    symmetry and the step angle are the slider's, both drawers cycle colour
    at the colour rate and the auto drawer moves at the draw speed; and the
    drawer that is not current is otherwise untouched, so the auto drawer's
    time, position and phases stand still in mouse mode and the mouse
    drawer's colour cursor stands still in auto mode. *)
Theorem frame_applies_sliders (ui : Controls) (p : P5.Pointer) (wld : World) :
  let wld' := fst (frame ui p wld) in
  let rate := SinusoidalDrawer.orElse (colorRate ui) 0.01 in
  let speed := SinusoidalDrawer.orElse (drawSpeed ui) 0.01 in
  symmetry (globals wld') = symmetryValue ui
  /\ angle (globals wld') = 360 / INR (symmetryValue ui)
  /\ autoPaused (globals wld') = autoPaused (globals wld)
  /\ MouseDrawer.colorInterpolationSpeed (mouseDrawer wld') = rate
  /\ SinusoidalDrawer.colorInterpolationSpeed (autoDrawer wld') = rate
  /\ SinusoidalDrawer.tIncrement (autoDrawer wld') = speed
  /\ currentDrawer wld' = currentDrawer wld
  /\ match currentDrawer wld with
     | CurrentMouse => autoDrawer wld' = setAutoSpeeds rate speed (autoDrawer wld)
     | CurrentAuto => mouseDrawer wld' = setMouseSpeed rate (mouseDrawer wld)
     end.
Proof.
  cbv zeta. destruct (currentDrawer wld) eqn:Hcur.
  - rewrite (frame_mouse ui p wld Hcur).
    cbn [fst globals mouseDrawer autoDrawer currentDrawer].
    destruct (mouse_draw_keeps_speed
                (fst (beginFrame (symmetryValue ui)
                        (withStrokeWeightSlider (strokeWeightValue ui) (globals wld))
                        (canvas wld)))
                (liveStrokeWeight
                   (fst (beginFrame (symmetryValue ui)
                           (withStrokeWeightSlider (strokeWeightValue ui) (globals wld))
                           (canvas wld))))
                p
                (P5.push
                   (snd (beginFrame (symmetryValue ui)
                           (withStrokeWeightSlider (strokeWeightValue ui) (globals wld))
                           (canvas wld))))
                (setMouseSpeed (SinusoidalDrawer.orElse (colorRate ui) 0.01)
                   (mouseDrawer wld))) as [Hs _].
    rewrite Hs. repeat split.
  - rewrite (frame_auto ui p wld Hcur).
    cbn [fst globals mouseDrawer autoDrawer currentDrawer].
    destruct (draw_keeps_speeds
                (fst (beginFrame (symmetryValue ui)
                        (withStrokeWeightSlider (strokeWeightValue ui) (globals wld))
                        (canvas wld)))
                (P5.push
                   (snd (beginFrame (symmetryValue ui)
                           (withStrokeWeightSlider (strokeWeightValue ui) (globals wld))
                           (canvas wld))))
                (setAutoSpeeds (SinusoidalDrawer.orElse (colorRate ui) 0.01)
                   (SinusoidalDrawer.orElse (drawSpeed ui) 0.01) (autoDrawer wld)))
      as [Hs Ht].
    rewrite Hs, Ht. repeat split.
Qed.

Lemma setAutoDrawer_world (color : string -> P5.Color) (r : Rng) (wld : World) :
  let wld1 := fst (setAutoDrawer color r wld) in
  currentDrawer wld1 = CurrentAuto
  /\ autoDrawer wld1
     = fst (SinusoidalDrawer.new color (globals wld) SinusoidalDrawer.noOpts r)
  /\ P5.drawn (canvas wld1) = []
  /\ globals wld1 = globals wld
  /\ mouseDrawer wld1 = mouseDrawer wld.
Proof. repeat split. Qed.

(** X22. Switching to the auto drawer always restarts the pattern: whatever
    the previous auto drawer was doing, the canvas is cleared, the new
    drawer starts at time 0 at the origin, and the first frame after the
    switch draws nothing, provided the sketch is running or the draw speed is
    not negative. *)
Theorem switch_to_auto_restarts (color : string -> P5.Color) (r : Rng)
    (ui : Controls) (p : P5.Pointer) (wld : World) :
  autoPaused (globals wld) = false
  \/ 0 <= SinusoidalDrawer.orElse (drawSpeed ui) 0.01 ->
  let wld1 := fst (setAutoDrawer color r wld) in
  SinusoidalDrawer.t (autoDrawer wld1) = 0
  /\ SinusoidalDrawer.pos (autoDrawer wld1) = P5.createVector 0 0
  /\ P5.drawn (canvas wld1) = []
  /\ P5.drawn (canvas (fst (frame ui p wld1))) = []
  /\ snd (frame ui p wld1) = JS.Normal.
Proof.
  intros H. cbv zeta.
  destruct (setAutoDrawer_world color r wld) as [Hcur [Had [Hdr [Hg _]]]].
  split; [reflexivity |]. split; [reflexivity |]. split; [exact Hdr |].
  rewrite (frame_auto ui p _ Hcur). cbn [fst snd canvas].
  rewrite draw_suppressed.
  - cbn [fst snd endFrame]. split; [exact Hdr | reflexivity].
  - rewrite Hg, Had. unfold SinusoidalDrawer.update.
    cbn [beginFrame fst autoPaused setSymmetry withStrokeWeightSlider].
    destruct (autoPaused (globals wld)) eqn:Hp.
    + destruct H as [H | H]; [discriminate |].
      cbn [SinusoidalDrawer.t SinusoidalDrawer.tIncrement setAutoSpeeds].
      change (SinusoidalDrawer.t
                (fst (SinusoidalDrawer.new color (globals wld)
                        SinusoidalDrawer.noOpts r))) with 0.
      exact H.
    + cbn [SinusoidalDrawer.t SinusoidalDrawer.tIncrement setAutoSpeeds].
      change (SinusoidalDrawer.t
                (fst (SinusoidalDrawer.new color (globals wld)
                        SinusoidalDrawer.noOpts r))) with 0.
      lra.
Qed.

Lemma switch_to_auto_restarts_witness :
  P5.drawn
    (canvas (fst (frame someControls pointerUp
                    (fst (setAutoDrawer (fun _ => black) (fun _ => 0) midwayWorld)))))
  = [].
Proof.
  apply (switch_to_auto_restarts (fun _ => black) (fun _ => 0) someControls
           pointerUp midwayWorld).
  left. reflexivity.
Defined.

(** X23. In auto mode, the sketch running and the drawer past time 0 with its
    cycler in order, a frame draws with the sliders as they are now: it adds
    twice the symmetry slider's value in segments, moves the colour cursor on
    by the colour rate and the time by the draw speed, and the segment starts
    from the position of the frame before. *)
Theorem auto_frame_uses_live_sliders (ui : Controls) (p : P5.Pointer) (wld : World) :
  currentDrawer wld = CurrentAuto ->
  autoPaused (globals wld) = false ->
  0 < SinusoidalDrawer.t (autoDrawer wld) ->
  SinusoidalDrawer.palette (autoDrawer wld) <> [] ->
  0 <= SinusoidalDrawer.colorInterpolation (autoDrawer wld) ->
  0 <= SinusoidalDrawer.orElse (colorRate ui) 0.01 ->
  let wld' := fst (frame ui p wld) in
  snd (frame ui p wld) = JS.Normal
  /\ List.length (P5.drawn (canvas wld'))
     = (List.length (P5.drawn (canvas wld)) + 2 * symmetryValue ui)%nat
  /\ SinusoidalDrawer.colorInterpolation (autoDrawer wld')
     = SinusoidalDrawer.colorInterpolation (autoDrawer wld)
       + SinusoidalDrawer.orElse (colorRate ui) 0.01
  /\ SinusoidalDrawer.t (autoDrawer wld')
     = SinusoidalDrawer.t (autoDrawer wld) + SinusoidalDrawer.orElse (drawSpeed ui) 0.01
  /\ SinusoidalDrawer.prevPos (autoDrawer wld') = SinusoidalDrawer.pos (autoDrawer wld).
Proof.
  intros Hcur Hrun Ht Hp Hc Hr. cbv zeta.
  rewrite (frame_auto ui p wld Hcur). cbn [fst snd canvas autoDrawer].
  set (g := fst (beginFrame (symmetryValue ui)
                   (withStrokeWeightSlider (strokeWeightValue ui) (globals wld))
                   (canvas wld))).
  set (c := P5.push
              (snd (beginFrame (symmetryValue ui)
                      (withStrokeWeightSlider (strokeWeightValue ui) (globals wld))
                      (canvas wld)))).
  set (ad := setAutoSpeeds (SinusoidalDrawer.orElse (colorRate ui) 0.01)
               (SinusoidalDrawer.orElse (drawSpeed ui) 0.01) (autoDrawer wld)).
  assert (Hg : autoPaused g = false) by exact Hrun.
  destruct (draw_reaches_loop g c ad) as [col E].
  - rewrite (update_running g c ad Hg).
    cbn [SinusoidalDrawer.t SinusoidalDrawer.tIncrement ad setAutoSpeeds]. lra.
  - rewrite (update_running g c ad Hg). repeat split; cbn; assumption.
  - rewrite E. cbn [fst snd endFrame]. split; [reflexivity |].
    rewrite (update_running g c ad Hg). split.
    + rewrite drawn_pop. unfold kaleidoscope. rewrite loop_count. reflexivity.
    + repeat split.
Qed.

Lemma auto_frame_uses_live_sliders_witness :
  List.length (P5.drawn (canvas (fst (frame someControls pointerUp midwayWorld))))
  = (List.length (P5.drawn (canvas midwayWorld)) + 2 * symmetryValue someControls)%nat.
Proof.
  apply (auto_frame_uses_live_sliders someControls pointerUp midwayWorld).
  - reflexivity.
  - reflexivity.
  - cbn [SinusoidalDrawer.t autoDrawer midwayWorld midway]. lra.
  - discriminate.
  - cbn [SinusoidalDrawer.colorInterpolation autoDrawer midwayWorld midway]. lra.
  - cbn [SinusoidalDrawer.orElse colorRate someControls]. lra.
Defined.

(** X24. In [sketch.js], while the sketch runs, [update] puts the position
    within the sum of the amplitudes of the two waves of each axis, and it
    never changes an amplitude, a frequency, a drift or a mode: only the
    phases move, each by its own drift. *)
Theorem sketch_js_update_bound (g : Globals) (c : P5.Canvas) (d : SketchJs.instance) :
  autoPaused g = false ->
  let d' := SketchJs.update g c d in
  Rabs (P5.x (SketchJs.pos d'))
  <= Rabs (SinusoidalWave.radius (SketchJs.wave1 d))
     + Rabs (SinusoidalWave.radius (SketchJs.wave2 d))
  /\ Rabs (P5.y (SketchJs.pos d'))
     <= Rabs (SinusoidalWave.radius (SketchJs.wave3 d))
        + Rabs (SinusoidalWave.radius (SketchJs.wave4 d))
  /\ SketchJs.xWaves d' = map (drifted 1) (SketchJs.xWaves d)
  /\ SketchJs.yWaves d' = map (drifted 1) (SketchJs.yWaves d)
  /\ SketchJs.prevPos d' = SketchJs.pos d
  /\ SketchJs.t d' = SketchJs.t d + SketchJs.tIncrement d.
Proof.
  intros Hrun. cbv zeta. unfold SketchJs.update. rewrite Hrun.
  cbn [SketchJs.pos SketchJs.prevPos SketchJs.t SketchJs.xWaves SketchJs.yWaves
       SketchJs.wave1 SketchJs.wave2 SketchJs.wave3 SketchJs.wave4 P5.x P5.y map].
  pose proof (value_bound (P5.angleMode c) (SketchJs.wave1 d) (SketchJs.t d)).
  pose proof (value_bound (P5.angleMode c) (SketchJs.wave2 d) (SketchJs.t d)).
  pose proof (value_bound (P5.angleMode c) (SketchJs.wave3 d) (SketchJs.t d)).
  pose proof (value_bound (P5.angleMode c) (SketchJs.wave4 d) (SketchJs.t d)).
  pose proof (Rabs_triang (SinusoidalWave.value (P5.angleMode c) (SketchJs.wave1 d)
                             (SketchJs.t d))
                          (SinusoidalWave.value (P5.angleMode c) (SketchJs.wave2 d)
                             (SketchJs.t d))).
  pose proof (Rabs_triang (SinusoidalWave.value (P5.angleMode c) (SketchJs.wave3 d)
                             (SketchJs.t d))
                          (SinusoidalWave.value (P5.angleMode c) (SketchJs.wave4 d)
                             (SketchJs.t d))).
  rewrite <- !(drifted_S 0), !drifted_0.
  repeat split; lra.
Qed.

Lemma sketch_js_update_bound_witness :
  Rabs (P5.y (SketchJs.pos (SketchJs.update runningGlobals setupCanvas sketchJsDefault)))
  <= Rabs (SinusoidalWave.radius (SketchJs.wave3 sketchJsDefault))
     + Rabs (SinusoidalWave.radius (SketchJs.wave4 sketchJsDefault)).
Proof.
  apply (sketch_js_update_bound runningGlobals setupCanvas sketchJsDefault).
  reflexivity.
Defined.

Lemma sinusoidal_draw_canvas (g : Globals) (c : P5.Canvas)
    (d : SinusoidalDrawer.instance) :
  match snd (SinusoidalDrawer.draw g c d) with
  | JS.Normal => P5.stack (snd (fst (SinusoidalDrawer.draw g c d))) = P5.stack c
  | JS.Abrupt _ => snd (fst (SinusoidalDrawer.draw g c d)) = c
  end.
Proof.
  unfold SinusoidalDrawer.draw. destruct (JS.le _ _); [reflexivity |].
  unfold SinusoidalDrawer.nextColor. destruct (paletteColor _ _); [| reflexivity].
  cbn [fst snd]. unfold kaleidoscope. apply loop_frame.
Qed.

Lemma mouse_draw_canvas (g : Globals) (w : R) (p : P5.Pointer) (c : P5.Canvas)
    (d : MouseDrawer.instance) :
  match snd (MouseDrawer.draw g w p c d) with
  | JS.Normal => P5.stack (snd (fst (MouseDrawer.draw g w p c d))) = P5.stack c
  | JS.Abrupt _ => snd (fst (MouseDrawer.draw g w p c d)) = c
  end.
Proof.
  unfold MouseDrawer.draw. destruct (MouseDrawer.inside c p); [| reflexivity].
  destruct (paletteColor _ _); [| reflexivity].
  cbn [fst snd]. unfold kaleidoscope. apply loop_frame.
Qed.

Lemma endFrame_cases (res : JS.Completion) (c0 c' : P5.Canvas) :
  match res with
  | JS.Normal => P5.stack c' = P5.stack (P5.push c0)
  | JS.Abrupt _ => c' = P5.push c0
  end ->
  match res with
  | JS.Normal =>
      P5.stack (endFrame res c') = P5.stack c0
      /\ P5.ctm (endFrame res c') = P5.ctm c0
      /\ P5.current (endFrame res c') = P5.current c0
  | JS.Abrupt _ =>
      P5.stack (endFrame res c') = (P5.ctm c0, P5.current c0) :: P5.stack c0
      /\ P5.drawn (endFrame res c') = P5.drawn c0
  end.
Proof.
  destruct res as [| e]; intros H; cbn [endFrame].
  - unfold P5.pop. rewrite H. cbn [P5.push P5.stack]. repeat split.
  - subst c'. split; reflexivity.
Qed.

(** X25. A frame that completes normally restores what it saved: the stack
    of saved drawing states and the stroke are those from before the frame
    and the transform is the move to the centre of the canvas.  A frame in
    which the drawer raises skips the restore: nothing was drawn and the
    saved state stays on the stack, one deeper than before. *)
Theorem frame_restores_unless_it_raises (ui : Controls) (p : P5.Pointer)
    (wld : World) :
  let c' := canvas (fst (frame ui p wld)) in
  match snd (frame ui p wld) with
  | JS.Normal =>
      P5.stack c' = P5.stack (canvas wld)
      /\ P5.ctm c'
         = P5.translation (P5.width (canvas wld) / 2) (P5.height (canvas wld) / 2)
      /\ P5.current c' = P5.current (canvas wld)
  | JS.Abrupt _ =>
      P5.stack c'
      = (P5.translation (P5.width (canvas wld) / 2) (P5.height (canvas wld) / 2),
         P5.current (canvas wld)) :: P5.stack (canvas wld)
      /\ P5.drawn c' = P5.drawn (canvas wld)
  end.
Proof.
  cbv zeta.
  destruct (beginFrame_transform (symmetryValue ui)
              (withStrokeWeightSlider (strokeWeightValue ui) (globals wld))
              (canvas wld)) as [Hctm _].
  set (c0 := snd (beginFrame (symmetryValue ui)
                    (withStrokeWeightSlider (strokeWeightValue ui) (globals wld))
                    (canvas wld))) in *.
  assert (Hfacts : P5.stack c0 = P5.stack (canvas wld)
                   /\ P5.current c0 = P5.current (canvas wld)
                   /\ P5.drawn c0 = P5.drawn (canvas wld)) by (repeat split).
  destruct Hfacts as [Hst [Hcu Hdr]].
  destruct (currentDrawer wld) eqn:Hcur.
  - rewrite (frame_mouse ui p wld Hcur). cbn [fst snd canvas]. fold c0.
    pose proof (mouse_draw_canvas
                  (fst (beginFrame (symmetryValue ui)
                          (withStrokeWeightSlider (strokeWeightValue ui) (globals wld))
                          (canvas wld)))
                  (liveStrokeWeight
                     (fst (beginFrame (symmetryValue ui)
                             (withStrokeWeightSlider (strokeWeightValue ui)
                                (globals wld))
                             (canvas wld))))
                  p (P5.push c0)
                  (setMouseSpeed (SinusoidalDrawer.orElse (colorRate ui) 0.01)
                     (mouseDrawer wld))) as H.
    apply endFrame_cases in H.
    destruct (snd (MouseDrawer.draw _ _ _ _ _)); rewrite <- Hctm, <- Hst, <- Hcu;
      [exact H | rewrite <- Hdr; exact H].
  - rewrite (frame_auto ui p wld Hcur). cbn [fst snd canvas]. fold c0.
    pose proof (sinusoidal_draw_canvas
                  (fst (beginFrame (symmetryValue ui)
                          (withStrokeWeightSlider (strokeWeightValue ui) (globals wld))
                          (canvas wld)))
                  (P5.push c0)
                  (setAutoSpeeds (SinusoidalDrawer.orElse (colorRate ui) 0.01)
                     (SinusoidalDrawer.orElse (drawSpeed ui) 0.01) (autoDrawer wld)))
      as H.
    apply endFrame_cases in H.
    destruct (snd (SinusoidalDrawer.draw _ _ _)); rewrite <- Hctm, <- Hst, <- Hcu;
      [exact H | rewrite <- Hdr; exact H].
Qed.

Lemma clearWorld_keeps (wld : World) :
  globals (clearWorld wld) = globals wld
  /\ vinylDiscDiameter (clearWorld wld) = vinylDiscDiameter wld
  /\ mouseDrawer (clearWorld wld) = mouseDrawer wld
  /\ autoDrawer (clearWorld wld) = autoDrawer wld
  /\ currentDrawer (clearWorld wld) = currentDrawer wld
  /\ P5.drawn (canvas (clearWorld wld)) = [].
Proof. repeat split. Qed.

(** X26. The drawing radius stays half the diameter of the vinyl disc: every
    event of the sketch keeps this ([setup] establishes it), so the circle
    the frame clips to is the disc that [clearCanvas] paints.  Key presses
    other than [c] and [C] change nothing at all, and every clearing event
    leaves the canvas without segments. *)
Theorem radius_is_half_the_disc (color : string -> P5.Color) (r : Rng)
    (ui : Controls) (p : P5.Pointer) (v : R) (key : string) (wld : World) :
  drawRadius (globals wld) = vinylDiscDiameter wld / 2 ->
  let half wld' := drawRadius (globals wld') = vinylDiscDiameter wld' / 2 in
  half (fst (frame ui p wld))
  /\ half (setMouseDrawer wld)
  /\ half (fst (setAutoDrawer color r wld))
  /\ half (toggleAutoPauseWorld wld)
  /\ half (keyPressed key wld)
  /\ half (vinylInput v wld)
  /\ vinylDiscDiameter (vinylInput v wld) = v * P5.width (canvas wld)
  /\ (if String.eqb key "c" || String.eqb key "C"
      then P5.drawn (canvas (keyPressed key wld)) = []
      else keyPressed key wld = wld)
  /\ P5.drawn (canvas (setMouseDrawer wld)) = []
  /\ P5.drawn (canvas (vinylInput v wld)) = [].
Proof.
  intros H. cbv zeta.
  split.
  { destruct (currentDrawer wld) eqn:Hcur.
    - rewrite (frame_mouse ui p wld Hcur). exact H.
    - rewrite (frame_auto ui p wld Hcur). exact H. }
  split; [exact H |]. split; [exact H |]. split; [exact H |].
  split.
  { unfold keyPressed. destruct (String.eqb key "c" || String.eqb key "C"); exact H. }
  split; [reflexivity |]. split; [reflexivity |].
  split.
  { unfold keyPressed. destruct (String.eqb key "c" || String.eqb key "C");
      reflexivity. }
  split; reflexivity.
Qed.

Lemma radius_is_half_the_disc_witness :
  drawRadius (globals (fst (setup (fun _ => black) (fun _ => 0))))
  = vinylDiscDiameter (fst (setup (fun _ => black) (fun _ => 0))) / 2
  /\ drawRadius (globals (vinylInput 0.5 (fst (setup (fun _ => black) (fun _ => 0)))))
     = vinylDiscDiameter (vinylInput 0.5 (fst (setup (fun _ => black) (fun _ => 0)))) / 2.
Proof.
  split; [reflexivity |].
  apply (radius_is_half_the_disc (fun _ => black) (fun _ => 0) someControls pointerUp
           0.5 "x" (fst (setup (fun _ => black) (fun _ => 0)))).
  reflexivity.
Defined.
